(** * MuyGPyS: distance tensors, kernels and the batched local solver

    A shallow embedding of the JAX back end of MuyGPyS
    ([_src/gp/distance/jax.py], [_src/gp/kernels/jax.py],
    [_src/gp/muygps/jax.py]).

    Conventions of the embedding.
    - A [jnp.ndarray] is a shape together with a map from multi-indices to
      entries ([ndarray]); entries outside the shape carry no meaning, so
      arrays are compared with [array_eq].
    - Floating-point scalars are idealised as real numbers ([R]); [exp],
      [sqrt] and [abs] are the functions of the standard library.  Where a
      statement depends on rounding, the distance functions are also given
      over IEEE binary64 numbers ([Binary64]).
    - Library primitives whose code is not part of the repository
      ([jnp.linalg.solve], [gammaln], [tfp.math.bessel_kve]) are parameters.
    - A Python exception is a value of [exn]; functions that can raise
      return a [result]. *)

From Stdlib Require Import Floats.
From Stdlib Require Import Reals Lra Lia List ZArith Bool String Arith.
From Stdlib Require Import ClassicalEpsilon.
From Stdlib Require Import Sorted.
Import ListNotations.

Open Scope R_scope.

(* ================================================================== *)
(** ** Exceptions *)

Inductive exn : Type :=
| ValueError (msg : string)
| TypeError (msg : string).

Inductive result (A : Type) : Type :=
| Ok (a : A)
| Raise (e : exn).

Arguments Ok {A} a.
Arguments Raise {A} e.

Definition bind {A B : Type} (r : result A) (k : A -> result B) : result B :=
  match r with
  | Ok a => k a
  | Raise e => Raise e
  end.

(* ================================================================== *)
(** ** Arrays *)

Record ndarray (A : Type) : Type := mk_ndarray {
  shape : list nat;
  item : list nat -> A
}.

Arguments mk_ndarray {A} shape item.
Arguments shape {A} n.
Arguments item {A} n ix.

(** [in_bounds sh ix]: the multi-index [ix] addresses an entry of an array
    of shape [sh]. *)
Fixpoint in_bounds (sh ix : list nat) : Prop :=
  match sh, ix with
  | [], [] => True
  | d :: sh', i :: ix' => (i < d)%nat /\ in_bounds sh' ix'
  | _, _ => False
  end.

Definition array_eq {A : Type} (a b : ndarray A) : Prop :=
  shape a = shape b /\
  forall ix, in_bounds (shape a) ix -> item a ix = item b ix.

Definition ndim {A : Type} (a : ndarray A) : nat := List.length (shape a).

(** [a.shape[k]] *)
Definition dim {A : Type} (a : ndarray A) (k : nat) : nat := nth k (shape a) 0%nat.

(** Number of entries of a shape. *)
Fixpoint size (sh : list nat) : nat :=
  match sh with
  | [] => 1
  | d :: sh' => d * size sh'
  end.

(** Row-major (C order) position of a multi-index, and its inverse. *)
Fixpoint ravel (sh ix : list nat) : nat :=
  match sh, ix with
  | _ :: sh', i :: ix' => i * size sh' + ravel sh' ix'
  | _, _ => 0
  end.

Fixpoint unravel (sh : list nat) (k : nat) : list nat :=
  match sh with
  | [] => []
  | _ :: sh' => (k / size sh')%nat :: unravel sh' (k mod size sh')
  end.

(** [a.reshape(sh)]: same entries in row-major order, new shape. *)
Definition reshape {A : Type} (sh : list nat) (a : ndarray A) : ndarray A :=
  mk_ndarray sh (fun ix => item a (unravel (shape a) (ravel sh ix))).

(** Elementwise application of a scalar function. *)
Definition amap {A B : Type} (f : A -> B) (a : ndarray A) : ndarray B :=
  mk_ndarray (shape a) (fun ix => f (item a ix)).

(** NumPy broadcasting of two arrays of equal rank: an axis of extent 1 is
    stretched, and is always read at position 0. *)
Fixpoint bshape (s1 s2 : list nat) : list nat :=
  match s1, s2 with
  | d1 :: r1, d2 :: r2 => (if (d1 =? 1)%nat then d2 else d1) :: bshape r1 r2
  | _, _ => []
  end.

Fixpoint bindex (sh ix : list nat) : list nat :=
  match sh, ix with
  | d :: sh', i :: ix' => (if (d =? 1)%nat then 0%nat else i) :: bindex sh' ix'
  | _, _ => []
  end.

Definition amap2 {A B C : Type} (f : A -> B -> C)
    (a : ndarray A) (b : ndarray B) : ndarray C :=
  mk_ndarray (bshape (shape a) (shape b))
    (fun ix => f (item a (bindex (shape a) ix)) (item b (bindex (shape b) ix))).

(** [jnp.expand_dims(a, axis)], also written [a[..., None, ...]]. *)
Definition expand_dims {A : Type} (axis : nat) (a : ndarray A) : ndarray A :=
  mk_ndarray (firstn axis (shape a) ++ 1%nat :: skipn axis (shape a))
    (fun ix => item a (firstn axis ix ++ skipn (S axis) ix)).

(** Sum of [f 0 .. f (n-1)]. *)
Fixpoint sum_n (n : nat) (f : nat -> R) : R :=
  match n with
  | O => 0
  | S n' => sum_n n' f + f n'
  end.

(** [jnp.sum(a, axis=-1)] *)
Definition sum_last (a : ndarray R) : ndarray R :=
  mk_ndarray (removelast (shape a))
    (fun ix => sum_n (last (shape a) 0%nat) (fun k => item a (ix ++ [k]))).

(** Integer indexing along axis 0: negative positions count from the end,
    and a position outside the axis is clamped to it (JAX gather). *)
Definition norm_index (len : nat) (z : Z) : nat :=
  let z' := if (z <? 0)%Z then (z + Z.of_nat len)%Z else z in
  Z.to_nat (Z.max 0 (Z.min z' (Z.of_nat len - 1))).

(** [data[indices]] and [data[indices, :]]: the rows of [data] selected by
    an integer array. *)
Definition gather {A : Type} (data : ndarray A) (indices : ndarray Z) : ndarray A :=
  let r := ndim indices in
  mk_ndarray (shape indices ++ tl (shape data))
    (fun ix => item data
       (norm_index (dim data 0) (item indices (firstn r ix)) :: skipn r ix)).

(** [jnp.arange(0, n)] *)
Definition arange (n : nat) : ndarray Z :=
  mk_ndarray [n] (fun ix => Z.of_nat (hd 0%nat ix)).

(** [a[:, :-1]] for a rank-2 array. *)
Definition drop_last_col {A : Type} (a : ndarray A) : ndarray A :=
  mk_ndarray [dim a 0; (dim a 1 - 1)%nat] (item a).

(** [jnp.concatenate((a, b), axis=1)] for rank-2 arrays; the extents along
    axis 0 must agree. *)
Definition concatenate1 {A : Type} (a b : ndarray A) : result (ndarray A) :=
  if (dim a 0 =? dim b 0)%nat then
    Ok (mk_ndarray [dim a 0; (dim a 1 + dim b 1)%nat]
          (fun ix =>
             match ix with
             | [i; j] => if (j <? dim a 1)%nat then item a [i; j]
                         else item b [i; (j - dim a 1)%nat]
             | _ => item a ix
             end))
  else Raise (TypeError "Cannot concatenate arrays with different shapes").

(** [a, b = x.shape] and [a, b, c = x.shape]: tuple unpacking of a shape. *)
Definition unpack2 (sh : list nat) : result (nat * nat) :=
  match sh with
  | [a; b] => Ok (a, b)
  | _ => Raise (ValueError "wrong number of values to unpack")
  end.

Definition unpack3 (sh : list nat) : result (nat * nat * nat) :=
  match sh with
  | [a; b; c] => Ok (a, b, c)
  | _ => Raise (ValueError "wrong number of values to unpack")
  end.

(** [a.reshape(sh)], which is refused when the number of entries changes. *)
Definition reshape_to {A : Type} (sh : list nat) (a : ndarray A) : result (ndarray A) :=
  if (size sh =? size (shape a))%nat then Ok (reshape sh a)
  else Raise (TypeError "cannot reshape array").

(** [a @ b] for rank-3 operands: a batch of matrix products.  The inner
    extents must agree; a batch axis of extent 1 is broadcast. *)
Definition matmul (a b : ndarray R) : result (ndarray R) :=
  let ba := dim a 0 in
  let bb := dim b 0 in
  if negb (dim a 2 =? dim b 1)%nat then
    Raise (TypeError "matmul: incompatible inner extents")
  else if negb ((ba =? bb) || (ba =? 1) || (bb =? 1))%nat then
    Raise (TypeError "matmul: incompatible batch extents")
  else
    Ok (mk_ndarray [if (ba =? 1)%nat then bb else ba; dim a 1; dim b 2]
          (fun ix =>
             match ix with
             | [i; p; k] =>
                 let ia := if (ba =? 1)%nat then 0%nat else i in
                 let ib := if (bb =? 1)%nat then 0%nat else i in
                 sum_n (dim a 2) (fun q => item a [ia; p; q] * item b [ib; q; k])
             | _ => 0
             end)).

(** [jnp.einsum("ij,ijk->ik", a, c)] *)
Definition einsum_ij_ijk_ik (a c : ndarray R) : ndarray R :=
  mk_ndarray [dim a 0; dim c 2]
    (fun ix =>
       match ix with
       | [i; k] => sum_n (dim a 1) (fun j => item a [i; j] * item c [i; j; k])
       | _ => 0
       end).

(** [jnp.einsum("ijk,ijk->ik", a, c)] *)
Definition einsum_ijk_ijk_ik (a c : ndarray R) : ndarray R :=
  mk_ndarray [dim a 0; dim a 2]
    (fun ix =>
       match ix with
       | [i; k] => sum_n (dim a 1) (fun j => item a [i; j; k] * item c [i; j; k])
       | _ => 0
       end).

(** [K.at[:, d, d].set(v)] with [d = jnp.arange(K.shape[1])] on a rank-3
    array. *)
Definition set_diag3 (a : ndarray R) (v : R) : ndarray R :=
  mk_ndarray (shape a)
    (fun ix =>
       match ix with
       | [b; i; j] => if ((i =? j) && (i <? dim a 1))%nat then v else item a ix
       | _ => item a ix
       end).

(** [K.at[:, :].set(v)] and [K.at[:, :, :].set(v)]: every entry replaced. *)
Definition fill (a : ndarray R) (v : R) : ndarray R :=
  mk_ndarray (shape a) (fun _ => v).

(** [x ** y] on floats, for a base [x > 0], and for [x = 0] with [y >= 0].
    (A negative base or a negative power of zero gives NaN or infinity,
    which the real numbers do not represent.) *)
Definition jnp_power (x y : R) : R :=
  if Req_dec_T x 0 then (if Req_dec_T y 0 then 1 else 0) else Rpower x y.

(* ================================================================== *)
(** ** [_src/gp/distance/jax.py] *)

Definition _diffs (points : ndarray R) : ndarray R :=
  amap2 Rminus (expand_dims 2 points) (expand_dims 1 points).

Definition _F2 (diffs : ndarray R) : ndarray R :=
  sum_last (amap (fun x => x ^ 2) diffs).

Definition _l2 (diffs : ndarray R) : ndarray R :=
  amap sqrt (_F2 diffs).

Definition unsupported_metric (metric : string) : exn :=
  ValueError ("Metric " ++ metric ++ " is not supported!")%string.

Definition _pairwise_distances (data : ndarray R) (nn_indices : ndarray Z)
    (metric : string) : result (ndarray R) :=
  let points := gather data nn_indices in
  if String.eqb metric "l2" then
    let diffs := _diffs points in
    Ok (_l2 diffs)
  else if String.eqb metric "F2" then
    let diffs := _diffs points in
    Ok (_F2 diffs)
  else Raise (unsupported_metric metric).

Definition _crosswise_diffs (locations points : ndarray R) : ndarray R :=
  amap2 Rminus (expand_dims 1 locations) points.

Definition _crosswise_distances (data nn_data : ndarray R)
    (data_indices nn_indices : ndarray Z) (metric : string) : result (ndarray R) :=
  let locations := gather data data_indices in
  let points := gather nn_data nn_indices in
  if String.eqb metric "l2" then
    let diffs := _crosswise_diffs locations points in
    Ok (_l2 diffs)
  else if String.eqb metric "F2" then
    let diffs := _crosswise_diffs locations points in
    Ok (_F2 diffs)
  else Raise (unsupported_metric metric).

Definition _fast_nn_update (nn_indices : ndarray Z) : result (ndarray Z) :=
  bind (unpack2 (shape nn_indices)) (fun '(train_count, _) =>
  concatenate1 (expand_dims 1 (arange train_count)) (drop_last_col nn_indices)).

Definition _make_fast_regress_tensors (metric : string)
    (batch_nn_indices : ndarray Z) (train_features train_targets : ndarray R)
    : result (ndarray R * ndarray R) :=
  bind (unpack2 (shape train_features)) (fun '(num_train, _) =>
  bind (concatenate1 (expand_dims 1 (arange num_train))
          (drop_last_col batch_nn_indices)) (fun batch_nn_indices_fast =>
  bind (_pairwise_distances train_features batch_nn_indices_fast metric)
    (fun pairwise_dists_fast =>
  let batch_nn_targets_fast := gather train_targets batch_nn_indices_fast in
  Ok (pairwise_dists_fast, batch_nn_targets_fast)))).

Definition _make_regress_tensors (metric : string)
    (batch_indices batch_nn_indices : ndarray Z)
    (test_features : option (ndarray R)) (train_features train_targets : ndarray R)
    : result (ndarray R * ndarray R * ndarray R) :=
  let test_features :=
    match test_features with None => train_features | Some t => t end in
  bind (_crosswise_distances test_features train_features
          batch_indices batch_nn_indices metric) (fun crosswise_dists =>
  bind (_pairwise_distances train_features batch_nn_indices metric)
    (fun pairwise_dists =>
  let batch_nn_targets := gather train_targets batch_nn_indices in
  Ok (crosswise_dists, pairwise_dists, batch_nn_targets))).

Definition _make_train_tensors (metric : string)
    (batch_indices batch_nn_indices : ndarray Z)
    (train_features train_targets : ndarray R)
    : result (ndarray R * ndarray R * ndarray R * ndarray R) :=
  bind (_make_regress_tensors metric batch_indices batch_nn_indices
          (Some train_features) train_features train_targets)
    (fun '(crosswise_dists, pairwise_dists, batch_nn_targets) =>
  let batch_targets := gather train_targets batch_indices in
  Ok (crosswise_dists, pairwise_dists, batch_targets, batch_nn_targets)).

(* ================================================================== *)
(** ** [_src/gp/kernels/jax.py] *)

Definition _rbf_fn (squared_dists : ndarray R) : ndarray R :=
  amap exp (amap (fun s => - s / 2) squared_dists).

Definition _matern_05_fn (dists : ndarray R) : ndarray R :=
  amap exp (amap Ropp dists).

Definition _matern_15_fn (dists : ndarray R) : ndarray R :=
  let K := amap (fun d => d * sqrt 3) dists in
  amap2 Rmult (amap (fun k => 1 + k) K) (amap exp (amap Ropp K)).

Definition _matern_25_fn (dists : ndarray R) : ndarray R :=
  let K := amap (fun d => d * sqrt 5) dists in
  amap2 Rmult (amap (fun k => 1 + k + k ^ 2 / 3) K) (amap exp (amap Ropp K)).

Definition _matern_inf_fn (dists : ndarray R) : ndarray R :=
  amap exp (amap (fun d => - (d ^ 2) / 2) dists).

Section MaternGeneral.

(** [jax.scipy.special.gammaln] and [tfp.math.bessel_kve]. *)
Variable gammaln : R -> R.
Variable bessel_kve : R -> R -> R.

(** [_matern_gen_fn], in the order of its statements.

    First the array [K] after the opening [if] statements: for a rank-3
    input the diagonal is set to 1 before anything is evaluated. *)
Definition matern_gen_forced (dists : ndarray R) : ndarray R :=
  let K := dists in
  if (ndim K =? 3)%nat then set_diag3 K 1 else K.

(** [tmp = jnp.sqrt(2 * nu) * K]: the argument handed to the power and to
    the Bessel function. *)
Definition matern_gen_tmp (dists : ndarray R) (nu : R) : ndarray R :=
  amap (fun x => sqrt (2 * nu) * x) (matern_gen_forced dists).

Definition matern_gen_const_val (nu : R) : R :=
  jnp_power 2 (1 - nu) / exp (gammaln nu).

(** [K] after [K *= tmp**nu] and [K *= bessel_kve(nu, tmp) / exp(abs(tmp))],
    before the closing [if] statement. *)
Definition matern_gen_scaled (dists : ndarray R) (nu : R) : ndarray R :=
  let K := matern_gen_forced dists in
  let tmp := matern_gen_tmp dists nu in
  let const_val := matern_gen_const_val nu in
  let K :=
    if (ndim K =? 2)%nat then fill K const_val
    else if (ndim K =? 3)%nat then fill K const_val
    else K in
  let K := amap2 Rmult K (amap (fun t => jnp_power t nu) tmp) in
  amap2 Rmult K
    (amap2 Rdiv (amap (bessel_kve nu) tmp)
                (amap exp (amap Rabs tmp))).

Definition _matern_gen_fn (dists : ndarray R) (nu : R) : ndarray R :=
  let K := matern_gen_scaled dists nu in
  if (ndim K =? 3)%nat then set_diag3 K 1 else K.

End MaternGeneral.

(* ================================================================== *)
(** ** [_src/gp/muygps/jax.py] *)

Section MuyGPS.

(** [jnp.linalg.solve] *)
Variable linalg_solve : ndarray R -> ndarray R -> ndarray R.

Definition _muygps_compute_solve (K Kcross batch_nn_targets : ndarray R)
    : result (ndarray R) :=
  bind (unpack3 (shape batch_nn_targets))
    (fun '(batch_count, nn_count, response_count) =>
  bind (reshape_to [batch_count; 1%nat; nn_count] Kcross) (fun Kcross3 =>
  bind (matmul Kcross3 (linalg_solve K batch_nn_targets)) (fun responses =>
  reshape_to [batch_count; response_count] responses))).

Definition _muygps_compute_diagonal_variance (K Kcross : ndarray R)
    : result (ndarray R) :=
  bind (unpack2 (shape Kcross)) (fun '(batch_count, nn_count) =>
  bind (reshape_to [batch_count; nn_count; 1%nat] Kcross) (fun Kcross3 =>
  bind (reshape_to [batch_count; nn_count] (linalg_solve K Kcross3))
    (fun solved =>
  Ok (amap (fun s => 1 - s) (sum_last (amap2 Rmult Kcross solved)))))).

Definition _muygps_fast_regress_solve (Kcross coeffs_tensor : ndarray R)
    : ndarray R :=
  einsum_ij_ijk_ik Kcross coeffs_tensor.

Definition _mmuygps_fast_regress_solve (Kcross coeffs_tensor : ndarray R)
    : ndarray R :=
  einsum_ijk_ijk_ik Kcross coeffs_tensor.

Definition _muygps_fast_regress_precompute (K train_nn_targets_fast : ndarray R)
    : ndarray R :=
  linalg_solve K train_nn_targets_fast.

End MuyGPS.

(* ================================================================== *)
(** ** [optimize/batch.py] (NumPy)

    The batch utilities work on integer NumPy arrays: a rank-1 array is a
    list, a rank-2 array is its column count together with its rows (so
    that an array without rows still has a column count).  NumPy raises
    [IndexError] for an index outside the array. *)

Inductive np_exn : Type :=
| NpValueError (msg : string)
| NpIndexError (msg : string).

Inductive np_result (A : Type) : Type :=
| NpOk (a : A)
| NpRaise (e : np_exn).

Arguments NpOk {A} a.
Arguments NpRaise {A} e.

Definition np_bind {A B : Type} (r : np_result A) (k : A -> np_result B)
    : np_result B :=
  match r with
  | NpOk a => k a
  | NpRaise e => NpRaise e
  end.

Fixpoint np_mapM {A B : Type} (f : A -> np_result B) (l : list A)
    : np_result (list B) :=
  match l with
  | [] => NpOk []
  | x :: l' =>
      np_bind (f x) (fun y => np_bind (np_mapM f l') (fun ys => NpOk (y :: ys)))
  end.

Record int_matrix : Type := mk_int_matrix {
  ncols : nat;
  mrows : list (list Z)
}.

(** [a[z]] for a rank-1 array and an integer: a negative position counts
    from the end. *)
Definition np_getitem (a : list Z) (z : Z) : np_result Z :=
  let n := Z.of_nat (List.length a) in
  if ((z <? - n) || (n <=? z))%Z then
    NpRaise (NpIndexError "index is out of bounds for axis 0")
  else NpOk (nth (Z.to_nat (if (z <? 0)%Z then z + n else z)) a 0%Z).

(** [a[m]] for a rank-1 array [a] and an integer matrix [m]. *)
Definition np_take (a : list Z) (m : int_matrix) : np_result int_matrix :=
  np_bind (np_mapM (np_mapM (np_getitem a)) (mrows m))
    (fun rows => NpOk (mk_int_matrix (ncols m) rows)).

Definition row_max (row : list Z) : Z := fold_right Z.max (hd 0%Z row) (tl row).
Definition row_min (row : list Z) : Z := fold_right Z.min (hd 0%Z row) (tl row).

(** [np.max(m, axis=1)] and [np.min(m, axis=1)]: a reduction over an axis
    of extent 0 is refused. *)
Definition np_max_axis1 (m : int_matrix) : np_result (list Z) :=
  if (ncols m =? 0)%nat then
    NpRaise (NpValueError "zero-size array to reduction operation maximum which has no identity")
  else NpOk (map row_max (mrows m)).

Definition np_min_axis1 (m : int_matrix) : np_result (list Z) :=
  if (ncols m =? 0)%nat then
    NpRaise (NpValueError "zero-size array to reduction operation minimum which has no identity")
  else NpOk (map row_min (mrows m)).

(** [a != b] for rank-1 arrays of the same length. *)
Definition np_not_equal (a b : list Z) : list bool :=
  map (fun '(x, y) => negb (x =? y)%Z) (combine a b).

(** [a[mask]] along axis 0 for a boolean mask, whose length must be the
    extent of the axis. *)
Definition np_mask_select {A : Type} (mask : list bool) (a : list A)
    : np_result (list A) :=
  if (List.length mask =? List.length a)%nat then
    NpOk (map snd (filter fst (combine mask a)))
  else NpRaise (NpIndexError "boolean index did not match indexed array along axis 0").

Section Batch.

(** [nbrs_lookup.get_batch_nns]: the neighbour query structure. *)
Variable get_batch_nns : list Z -> int_matrix.

Definition full_filtered_batch (labels : list Z)
    : np_result (list Z * int_matrix) :=
  let indices := map Z.of_nat (seq 0 (List.length labels)) in
  let nn_indices := get_batch_nns indices in
  np_bind (np_take labels nn_indices) (fun nn_labels =>
  np_bind (np_max_axis1 nn_labels) (fun maxs =>
  np_bind (np_min_axis1 nn_labels) (fun mins =>
  let nonconstant_mask := np_not_equal maxs mins in
  np_bind (np_mask_select nonconstant_mask indices) (fun batch_indices =>
  np_bind (np_mask_select nonconstant_mask (mrows nn_indices))
    (fun batch_nn_rows =>
  NpOk (batch_indices, mk_int_matrix (ncols nn_indices) batch_nn_rows)))))).

(** [sample_balanced_batch] draws with [np.random.choice]; it is a
    parameter of [get_balanced_batch]. *)
Variable sample_balanced_batch : list Z -> Z -> np_result (list Z * int_matrix).

Definition get_balanced_batch (labels : list Z) (batch_size : Z)
    : np_result (list Z * int_matrix) :=
  if (batch_size <? Z.of_nat (List.length labels))%Z then
    sample_balanced_batch labels batch_size
  else full_filtered_batch labels.

End Batch.

(** The class label read at a valid position [z] of [labels]. *)
Definition label_at (labels : list Z) (z : Z) : Z :=
  nth (Z.to_nat (if (z <? 0)%Z then z + Z.of_nat (List.length labels) else z))
      labels 0%Z.

(** Labels -1, 1, 1 and the neighbour rows [[1, 2], [0, 2], [0, 1]]. *)
Definition sample_labels : list Z := [(-1)%Z; 1%Z; 1%Z].

Definition sample_lookup (indices : list Z) : int_matrix :=
  mk_int_matrix 2 [[1%Z; 2%Z]; [0%Z; 2%Z]; [0%Z; 1%Z]].

(* ================================================================== *)
(** ** Linear-algebra vocabulary of the specification *)

Definition delta (p q : nat) : R := if (p =? q)%nat then 1 else 0.

(** [Kinv] holds, at batch element [i], the inverse of the [n] x [n] matrix
    [K[i]]. *)
Definition inverse_at (n : nat) (K Kinv : ndarray R) (i : nat) : Prop :=
  (forall p q, (p < n)%nat -> (q < n)%nat ->
     sum_n n (fun m => item Kinv [i; p; m] * item K [i; m; q]) = delta p q) /\
  (forall p q, (p < n)%nat -> (q < n)%nat ->
     sum_n n (fun m => item K [i; p; m] * item Kinv [i; m; q]) = delta p q).

Definition nonsingular_at (n : nat) (K : ndarray R) (i : nat) : Prop :=
  exists Kinv, inverse_at n K Kinv i.

(** [X[i]] solves the linear system [K[i] . x = T[i]] ([r] right-hand
    sides). *)
Definition solves_at (n r : nat) (K T X : ndarray R) (i : nat) : Prop :=
  forall p k, (p < n)%nat -> (k < r)%nat ->
    sum_n n (fun q => item K [i; p; q] * item X [i; q; k]) = item T [i; p; k].

(** The contract of [jnp.linalg.solve] on a batch of square systems: the
    result has the shape of the right-hand side, and solves every system of
    the batch whose matrix is non-singular. *)
Definition solver_spec (solve : ndarray R -> ndarray R -> ndarray R) : Prop :=
  forall K T b n r,
    shape K = [b; n; n] -> shape T = [b; n; r] ->
    shape (solve K T) = [b; n; r] /\
    forall i, (i < b)%nat -> nonsingular_at n K i -> solves_at n r K T (solve K T) i.

(** The quadratic form [v^T . M . v] of an [m] x [m] matrix. *)
Definition quad_form (m : nat) (M : nat -> nat -> R) (v : nat -> R) : R :=
  sum_n m (fun p => sum_n m (fun q => v p * M p q * v q)).

Definition psd (m : nat) (M : nat -> nat -> R) : Prop :=
  forall v, 0 <= quad_form m M v.

Definition symmetric (m : nat) (M : nat -> nat -> R) : Prop :=
  forall p q, (p < m)%nat -> (q < m)%nat -> M p q = M q p.

Definition unit_diagonal (m : nat) (M : nat -> nat -> R) : Prop :=
  forall p, (p < m)%nat -> M p p = 1.

(** The matrix [K[i]] of a batch. *)
Definition slice (K : ndarray R) (i : nat) : nat -> nat -> R :=
  fun p q => item K [i; p; q].

(** The correlation matrix of the [n] neighbours together with the query
    point: [K[i]] bordered by [Kcross[i]], with prior variance 1 in the
    corner. *)
Definition border (n : nat) (M : nat -> nat -> R) (k : nat -> R) : nat -> nat -> R :=
  fun p q =>
    if (p <? n)%nat then (if (q <? n)%nat then M p q else k p)
    else (if (q <? n)%nat then k q else 1).

Definition joint (n : nat) (K Kcross : ndarray R) (i : nat) : nat -> nat -> R :=
  border n (slice K i) (fun p => item Kcross [i; p]).

(** The feature vector of the [i]-th neighbour of batch element [b]. *)
Definition neighbour (data : ndarray R) (nn_indices : ndarray Z)
    (point_count b i k : nat) : R :=
  item data [norm_index point_count (item nn_indices [b; i]); k].

(** A solver meeting [solver_spec]: at a non-singular batch element it
    multiplies the right-hand side by the inverse. *)
Definition inhabited_ndarray : inhabited (ndarray R) :=
  inhabits (mk_ndarray [] (fun _ => 0)).

Definition reference_solve (K T : ndarray R) : ndarray R :=
  let n := dim K 1 in
  mk_ndarray (shape T)
    (fun ix =>
       match ix with
       | [i; q; k] =>
           let Kinv := epsilon inhabited_ndarray (fun M => inverse_at n K M i) in
           sum_n n (fun m => item Kinv [i; q; m] * item T [i; m; k])
       | _ => 0
       end).

(* ================================================================== *)
(** ** Sample arrays *)

(** Three points of the plane: (0,0), (3,4), (1,1). *)
Definition sample_features : ndarray R :=
  mk_ndarray [3%nat; 2%nat]
    (fun ix =>
       match ix with
       | [1%nat; 0%nat] => 3
       | [1%nat; 1%nat] => 4
       | [2%nat; _] => 1
       | _ => 0
       end).

(** Neighbour indices [[1, 2], [0, 2], [0, 1]]. *)
Definition sample_indices : ndarray Z :=
  mk_ndarray [3%nat; 2%nat]
    (fun ix =>
       match ix with
       | [0%nat; 0%nat] => 1%Z
       | [0%nat; _] => 2%Z
       | [1%nat; 0%nat] => 0%Z
       | [1%nat; _] => 2%Z
       | [_; 0%nat] => 0%Z
       | _ => 1%Z
       end).

(** Neighbour indices [[0, 1], [1, 2], [2, 0]]: every point is its own
    first neighbour. *)
Definition sample_self_indices : ndarray Z :=
  mk_ndarray [3%nat; 2%nat]
    (fun ix =>
       match ix with
       | [i; 0%nat] => Z.of_nat i
       | [i; _] => Z.of_nat (S i mod 3)
       | _ => 0%Z
       end).

(** Neighbour indices [[1, 1]]: the same point listed twice. *)
Definition sample_repeated_indices : ndarray Z :=
  mk_ndarray [1%nat; 2%nat] (fun _ => 1%Z).

(** One response per training point: 1, 2, 3. *)
Definition sample_targets : ndarray R :=
  mk_ndarray [3%nat; 1%nat]
    (fun ix => match ix with [i; _] => INR (S i) | _ => 0 end).

(** A neighbour-index array with no neighbour column, shape (1, 0). *)
Definition empty_indices : ndarray Z :=
  mk_ndarray [1%nat; 0%nat] (fun _ => 0%Z).

(** A batch of one 2 x 2 identity covariance matrix. *)
Definition sample_K : ndarray R :=
  mk_ndarray [1%nat; 2%nat; 2%nat]
    (fun ix => match ix with [_; p; q] => delta p q | _ => 0 end).

(** Cross-covariances (1/2, 0). *)
Definition sample_Kcross : ndarray R :=
  mk_ndarray [1%nat; 2%nat]
    (fun ix => match ix with [_; 0%nat] => / 2 | _ => 0 end).

(** Neighbour targets [[3], [5]]. *)
Definition sample_nn_targets : ndarray R :=
  mk_ndarray [1%nat; 2%nat; 1%nat]
    (fun ix => match ix with [_; 0%nat; _] => 3 | _ => 5 end).

(** A rank-3 distance tensor of shape (1, 2, 2) with distance 2 off the
    diagonal, and a rank-2 tensor of shape (1, 2) whose first entry is 0. *)
Definition sample_dists3 : ndarray R :=
  mk_ndarray [1%nat; 2%nat; 2%nat]
    (fun ix => match ix with [_; p; q] => if (p =? q)%nat then 0 else 2 | _ => 0 end).

Definition sample_dists2 : ndarray R :=
  mk_ndarray [1%nat; 2%nat]
    (fun ix => match ix with [_; 0%nat] => 0 | _ => 2 end).

(** A rank-1 tensor holding the single squared distance 2. *)
Definition sample_sq : ndarray R :=
  mk_ndarray [1%nat] (fun _ => 2).

(* ================================================================== *)
(** ** [_src/gp/distance/jax.py] over IEEE binary64

    The pairwise distance functions once more, on 64-bit floating-point
    scalars with their correctly rounded operations.  [diffs**2] is the
    product of an entry with itself, and [jnp.sum] adds the entries of the
    last axis to an initial 0.  (JAX does not fix the order in which a
    reduction adds its terms; the statements proved about these
    definitions do not depend on it.) *)

Module Binary64.

Fixpoint sum_n (n : nat) (f : nat -> float) : float :=
  match n with
  | O => 0%float
  | S n' => (sum_n n' f + f n')%float
  end.

(** [jnp.sum(a, axis=-1)] *)
Definition sum_last (a : ndarray float) : ndarray float :=
  mk_ndarray (removelast (shape a))
    (fun ix => sum_n (last (shape a) 0%nat) (fun k => item a (ix ++ [k]))).

Definition _diffs (points : ndarray float) : ndarray float :=
  amap2 PrimFloat.sub (expand_dims 2 points) (expand_dims 1 points).

Definition _F2 (diffs : ndarray float) : ndarray float :=
  sum_last (amap (fun x => (x * x)%float) diffs).

Definition _l2 (diffs : ndarray float) : ndarray float :=
  amap PrimFloat.sqrt (_F2 diffs).

Definition _pairwise_distances (data : ndarray float) (nn_indices : ndarray Z)
    (metric : string) : result (ndarray float) :=
  let points := gather data nn_indices in
  if String.eqb metric "l2" then
    let diffs := _diffs points in
    Ok (_l2 diffs)
  else if String.eqb metric "F2" then
    let diffs := _diffs points in
    Ok (_F2 diffs)
  else Raise (unsupported_metric metric).

(** Two points of the plane, (0,0) and (2,3), and the neighbour indices
    [[0, 1]]. *)
Definition sample_points : ndarray float :=
  mk_ndarray [2%nat; 2%nat]
    (fun ix =>
       match ix with
       | [1%nat; 0%nat] => 2%float
       | [1%nat; 1%nat] => 3%float
       | _ => 0%float
       end).

Definition sample_pair : ndarray Z :=
  mk_ndarray [1%nat; 2%nat]
    (fun ix => match ix with [_; i] => Z.of_nat i | _ => 0%Z end).

End Binary64.

(* ================================================================== *)
(** ** Finite sums *)

Lemma sum_n_ext (n : nat) (f g : nat -> R) :
  (forall i, (i < n)%nat -> f i = g i) -> sum_n n f = sum_n n g.
Proof.
  induction n as [|n IH]; intros H; simpl; [reflexivity|].
  rewrite IH by (intros i Hi; apply H; lia).
  rewrite (H n) by lia. reflexivity.
Qed.

Lemma sum_n_zero (n : nat) : sum_n n (fun _ => 0) = 0.
Proof. induction n as [|n IH]; simpl; [reflexivity | rewrite IH; lra]. Qed.

Lemma sum_n_plus (n : nat) (f g : nat -> R) :
  sum_n n (fun i => f i + g i) = sum_n n f + sum_n n g.
Proof. induction n as [|n IH]; simpl; [lra | rewrite IH; lra]. Qed.

Lemma sum_n_scal_l (n : nat) (c : R) (f : nat -> R) :
  sum_n n (fun i => c * f i) = c * sum_n n f.
Proof. induction n as [|n IH]; simpl; [lra | rewrite IH; lra]. Qed.

Lemma sum_n_scal_r (n : nat) (c : R) (f : nat -> R) :
  sum_n n (fun i => f i * c) = sum_n n f * c.
Proof. induction n as [|n IH]; simpl; [lra | rewrite IH; lra]. Qed.

Lemma sum_n_swap (n m : nat) (f : nat -> nat -> R) :
  sum_n n (fun i => sum_n m (fun j => f i j)) =
  sum_n m (fun j => sum_n n (fun i => f i j)).
Proof.
  induction n as [|n IH]; simpl.
  - now rewrite sum_n_zero.
  - rewrite IH, <- sum_n_plus. reflexivity.
Qed.

Lemma sum_n_nonneg (n : nat) (f : nat -> R) :
  (forall i, (i < n)%nat -> 0 <= f i) -> 0 <= sum_n n f.
Proof.
  induction n as [|n IH]; intros H; simpl; [lra|].
  assert (0 <= sum_n n f) by (apply IH; intros; apply H; lia).
  assert (0 <= f n) by (apply H; lia). lra.
Qed.

Lemma sum_n_delta_l (n p : nat) (f : nat -> R) :
  (p < n)%nat -> sum_n n (fun q => delta p q * f q) = f p.
Proof.
  unfold delta. induction n as [|n IH]; intros Hp; [lia|]. simpl.
  destruct (Nat.eq_dec p n) as [->|Hne].
  - rewrite Nat.eqb_refl.
    rewrite (sum_n_ext n _ (fun _ => 0)).
    + rewrite sum_n_zero. lra.
    + intros i Hi. destruct (Nat.eqb_spec n i); [lia | lra].
  - rewrite IH by lia. destruct (Nat.eqb_spec p n); [lia | lra].
Qed.

(* ================================================================== *)
(** ** Indexing lemmas *)

Lemma bsel_in_range (d i : nat) :
  (i < d)%nat -> (if (d =? 1)%nat then 0%nat else i) = i.
Proof. intros H. destruct (Nat.eqb_spec d 1); lia. Qed.

Lemma bshape_same (sh : list nat) : bshape sh sh = sh.
Proof.
  induction sh as [|d sh IH]; simpl; [reflexivity|].
  rewrite IH. now destruct (d =? 1)%nat.
Qed.

Lemma bindex_in_bounds (sh ix : list nat) :
  in_bounds sh ix -> bindex sh ix = ix.
Proof.
  revert ix. induction sh as [|d sh IH]; intros [|i ix]; simpl; try tauto.
  intros [Hi Hix]. now rewrite IH, bsel_in_range.
Qed.

Lemma ravel_lt (sh ix : list nat) :
  in_bounds sh ix -> (ravel sh ix < size sh)%nat.
Proof.
  revert ix. induction sh as [|d sh IH]; intros [|i ix]; simpl; try tauto.
  - lia.
  - intros [Hi Hix]. specialize (IH ix Hix). nia.
Qed.

Lemma unravel_ravel (sh ix : list nat) :
  in_bounds sh ix -> unravel sh (ravel sh ix) = ix.
Proof.
  revert ix. induction sh as [|d sh IH]; intros [|i ix]; simpl; try tauto.
  intros [Hi Hix]. pose proof (ravel_lt sh ix Hix) as Hlt.
  assert (Hq : ((i * size sh + ravel sh ix) / size sh = i)%nat).
  { rewrite Nat.div_add_l by lia. rewrite Nat.div_small by exact Hlt. lia. }
  assert (Hr : ((i * size sh + ravel sh ix) mod size sh = ravel sh ix)%nat).
  { rewrite (Nat.add_comm (i * size sh)), Nat.Div0.mod_add.
    now apply Nat.mod_small. }
  now rewrite Hq, Hr, IH.
Qed.

(** Reading a reshaped array: positions with the same row-major rank hold
    the same entry. *)
Lemma reshape_item {A : Type} (sh : list nat) (a : ndarray A) (ix ix' : list nat) :
  in_bounds (shape a) ix' -> ravel sh ix = ravel (shape a) ix' ->
  item (reshape sh a) ix = item a ix'.
Proof.
  intros Hb He. unfold reshape. simpl. now rewrite He, unravel_ravel.
Qed.

(* ================================================================== *)
(** ** Distance tensors *)

Section PairwiseEntries.

Variables (data : ndarray R) (nn_indices : ndarray Z).
Variables (point_count feature_count batch_count nn_count : nat).
Hypothesis data_shape : shape data = [point_count; feature_count].
Hypothesis indices_shape : shape nn_indices = [batch_count; nn_count].

Lemma gather_shape :
  shape (gather data nn_indices) = [batch_count; nn_count; feature_count].
Proof. unfold gather. simpl. now rewrite data_shape, indices_shape. Qed.

Lemma gather_item (b i k : nat) :
  item (gather data nn_indices) [b; i; k] =
  neighbour data nn_indices point_count b i k.
Proof.
  unfold gather, neighbour, ndim, dim. simpl.
  now rewrite data_shape, indices_shape.
Qed.

Lemma diffs_shape :
  shape (_diffs (gather data nn_indices)) =
  [batch_count; nn_count; nn_count; feature_count].
Proof.
  unfold _diffs, amap2, expand_dims. cbn [shape]. rewrite gather_shape.
  cbn [firstn skipn app bshape Nat.eqb].
  destruct (batch_count =? 1)%nat, (nn_count =? 1)%nat eqn:E,
    (feature_count =? 1)%nat; try reflexivity;
    apply Nat.eqb_eq in E; now subst.
Qed.

Lemma diffs_item (b i j k : nat) :
  (b < batch_count)%nat -> (i < nn_count)%nat -> (j < nn_count)%nat ->
  (k < feature_count)%nat ->
  item (_diffs (gather data nn_indices)) [b; i; j; k] =
  neighbour data nn_indices point_count b i k -
  neighbour data nn_indices point_count b j k.
Proof.
  intros Hb Hi Hj Hk.
  unfold _diffs, amap2, expand_dims.
  cbn [item shape]. rewrite gather_shape.
  cbn [firstn skipn app bindex Nat.eqb].
  rewrite !(bsel_in_range batch_count), !(bsel_in_range nn_count),
    !(bsel_in_range feature_count) by assumption.
  now rewrite !gather_item.
Qed.

Lemma F2_shape :
  shape (_F2 (_diffs (gather data nn_indices))) =
  [batch_count; nn_count; nn_count].
Proof. unfold _F2, sum_last, amap. cbn [shape]. now rewrite diffs_shape. Qed.

Lemma F2_item (b i j : nat) :
  (b < batch_count)%nat -> (i < nn_count)%nat -> (j < nn_count)%nat ->
  item (_F2 (_diffs (gather data nn_indices))) [b; i; j] =
  sum_n feature_count
    (fun k => (neighbour data nn_indices point_count b i k -
               neighbour data nn_indices point_count b j k) ^ 2).
Proof.
  intros Hb Hi Hj. unfold _F2, sum_last, amap. cbn [item shape].
  rewrite diffs_shape. cbn [last app].
  apply sum_n_ext. intros k Hk. now rewrite diffs_item.
Qed.

End PairwiseEntries.

Lemma F2_nonneg (diffs : ndarray R) (ix : list nat) : 0 <= item (_F2 diffs) ix.
Proof.
  unfold _F2, sum_last, amap. cbn [item]. apply sum_n_nonneg.
  intros k _. apply pow2_ge_0.
Qed.

(** C8. Under metric "l2" the pairwise distance tensor of a feature matrix
    and a neighbour-index tensor of shape (batch_count, nn_count) is
    produced, has shape (batch_count, nn_count, nn_count), is symmetric in
    its last two axes, [D[b,i,j] = D[b,j,i]], and has a zero diagonal,
    [D[b,i,i] = 0].  This holds whatever the index values are, so in
    particular when all of them are in range. *)
Theorem pairwise_l2_symmetric_zero_diagonal
    (data : ndarray R) (nn_indices : ndarray Z)
    (point_count feature_count batch_count nn_count : nat) :
  shape data = [point_count; feature_count] ->
  shape nn_indices = [batch_count; nn_count] ->
  exists D,
    _pairwise_distances data nn_indices "l2" = Ok D /\
    shape D = [batch_count; nn_count; nn_count] /\
    forall b i j,
      (b < batch_count)%nat -> (i < nn_count)%nat -> (j < nn_count)%nat ->
      item D [b; i; j] = item D [b; j; i] /\ item D [b; i; i] = 0.
Proof.
  intros Hd Hi. eexists. split; [reflexivity|]. split.
  - unfold _l2, amap. cbn [shape]. now apply (F2_shape data nn_indices point_count feature_count).
  - intros b i j Hb Hi' Hj. unfold _l2, amap. cbn [item].
    rewrite !(F2_item data nn_indices point_count feature_count batch_count nn_count)
      by assumption.
    split.
    + f_equal. apply sum_n_ext. intros k _. ring.
    + rewrite (sum_n_ext _ _ (fun _ => 0)).
      * rewrite sum_n_zero. apply sqrt_0.
      * intros k _. ring.
Qed.

Lemma pairwise_l2_symmetric_zero_diagonal_witness :
  shape sample_features = [3%nat; 2%nat] /\
  shape sample_indices = [3%nat; 2%nat] /\
  exists D,
    _pairwise_distances sample_features sample_indices "l2" = Ok D /\
    shape D = [3%nat; 2%nat; 2%nat] /\
    forall b i j,
      (b < 3)%nat -> (i < 2)%nat -> (j < 2)%nat ->
      item D [b; i; j] = item D [b; j; i] /\ item D [b; i; i] = 0.
Proof.
  split; [reflexivity|]. split; [reflexivity|].
  apply (pairwise_l2_symmetric_zero_diagonal sample_features sample_indices
           3 2 3 2); reflexivity.
Defined.

(** Shape of the binary64 squared-distance tensor. *)
Lemma binary64_F2_shape (data : ndarray float) (nn_indices : ndarray Z)
    (point_count feature_count batch_count nn_count : nat) :
  shape data = [point_count; feature_count] ->
  shape nn_indices = [batch_count; nn_count] ->
  shape (Binary64._F2 (Binary64._diffs (gather data nn_indices))) =
  [batch_count; nn_count; nn_count].
Proof.
  intros Hd Hi.
  unfold Binary64._F2, Binary64.sum_last, Binary64._diffs, amap, amap2,
    expand_dims, gather.
  cbn [shape]. rewrite Hd, Hi.
  cbn [app tl firstn skipn bshape Nat.eqb removelast].
  destruct (batch_count =? 1)%nat, (nn_count =? 1)%nat eqn:E;
    try reflexivity; apply Nat.eqb_eq in E; now subst.
Qed.

(** C9, as stated, fails on binary64 numbers.  For the points (0,0) and
    (2,3) the "F2" entry [0,0,1] is 4 + 9 = 13, the "l2" entry is the
    rounded square root of 13, and the square of that is the double just
    below 13 (12.999999999999998), not 13. *)
Lemma pairwise_F2_is_l2_squared_counterexample :
  exists D2 Dl,
    Binary64._pairwise_distances Binary64.sample_points Binary64.sample_pair "F2"
      = Ok D2 /\
    Binary64._pairwise_distances Binary64.sample_points Binary64.sample_pair "l2"
      = Ok Dl /\
    in_bounds (shape D2) [0%nat; 0%nat; 1%nat] /\
    item D2 [0%nat; 0%nat; 1%nat] = 13%float /\
    item Dl [0%nat; 0%nat; 1%nat] = PrimFloat.sqrt 13 /\
    PrimFloat.eqb (item D2 [0%nat; 0%nat; 1%nat])
      (item Dl [0%nat; 0%nat; 1%nat] * item Dl [0%nat; 0%nat; 1%nat]) = false /\
    PrimFloat.ltb
      (item Dl [0%nat; 0%nat; 1%nat] * item Dl [0%nat; 0%nat; 1%nat])
      (item D2 [0%nat; 0%nat; 1%nat]) = true.
Proof.
  do 2 eexists. split; [reflexivity|]. split; [reflexivity|].
  split; [cbn; lia|].
  repeat split; vm_compute; reflexivity.
Qed.

(** C9 (amended). On the same feature matrix and neighbour-index tensor of
    shape (batch_count, nn_count), both metrics produce a tensor of shape
    (batch_count, nn_count, nn_count), and the one under metric "l2" is
    the elementwise floating-point square root of the one under metric
    "F2".  Squaring an "l2" entry gives the "F2" entry back where that
    entry is 0; elsewhere it need not, because the square root and the
    product are rounded. *)
Theorem pairwise_l2_is_sqrt_of_F2
    (data : ndarray float) (nn_indices : ndarray Z)
    (point_count feature_count batch_count nn_count : nat) :
  shape data = [point_count; feature_count] ->
  shape nn_indices = [batch_count; nn_count] ->
  exists D2 Dl,
    Binary64._pairwise_distances data nn_indices "F2" = Ok D2 /\
    Binary64._pairwise_distances data nn_indices "l2" = Ok Dl /\
    shape D2 = [batch_count; nn_count; nn_count] /\
    shape Dl = [batch_count; nn_count; nn_count] /\
    forall b i j,
      (b < batch_count)%nat -> (i < nn_count)%nat -> (j < nn_count)%nat ->
      item Dl [b; i; j] = PrimFloat.sqrt (item D2 [b; i; j]) /\
      (item D2 [b; i; j] = 0%float ->
       (item Dl [b; i; j] * item Dl [b; i; j])%float = item D2 [b; i; j]).
Proof.
  intros Hd Hi. do 2 eexists.
  split; [reflexivity|]. split; [reflexivity|].
  split; [now apply (binary64_F2_shape data nn_indices point_count feature_count)|].
  split.
  - unfold Binary64._l2, amap. cbn [shape].
    now apply (binary64_F2_shape data nn_indices point_count feature_count).
  - intros b i j _ _ _. unfold Binary64._l2, amap. cbn [item].
    split; [reflexivity|].
    intros E. rewrite E. reflexivity.
Qed.

Lemma pairwise_l2_is_sqrt_of_F2_witness :
  shape Binary64.sample_points = [2%nat; 2%nat] /\
  shape Binary64.sample_pair = [1%nat; 2%nat] /\
  exists D2 Dl,
    Binary64._pairwise_distances Binary64.sample_points Binary64.sample_pair "F2"
      = Ok D2 /\
    Binary64._pairwise_distances Binary64.sample_points Binary64.sample_pair "l2"
      = Ok Dl /\
    shape D2 = [1%nat; 2%nat; 2%nat] /\
    shape Dl = [1%nat; 2%nat; 2%nat] /\
    forall b i j,
      (b < 1)%nat -> (i < 2)%nat -> (j < 2)%nat ->
      item Dl [b; i; j] = PrimFloat.sqrt (item D2 [b; i; j]) /\
      (item D2 [b; i; j] = 0%float ->
       (item Dl [b; i; j] * item Dl [b; i; j])%float = item D2 [b; i; j]).
Proof.
  split; [reflexivity|]. split; [reflexivity|].
  apply (pairwise_l2_is_sqrt_of_F2 Binary64.sample_points Binary64.sample_pair
           2 2 1 2); reflexivity.
Defined.

(** C7. A metric string other than "l2" and "F2" makes both
    [_pairwise_distances] and [_crosswise_distances] raise a [ValueError]
    whose message, "Metric <metric> is not supported!", names the metric;
    no supported metric is substituted. *)
Theorem unsupported_metric_raises (metric : string)
    (data nn_data : ndarray R) (data_indices nn_indices : ndarray Z) :
  metric <> "l2"%string -> metric <> "F2"%string ->
  _pairwise_distances data nn_indices metric =
    Raise (ValueError ("Metric " ++ metric ++ " is not supported!")%string) /\
  _crosswise_distances data nn_data data_indices nn_indices metric =
    Raise (ValueError ("Metric " ++ metric ++ " is not supported!")%string).
Proof.
  intros H1 H2. unfold _pairwise_distances, _crosswise_distances.
  destruct (String.eqb_spec metric "l2") as [E|_]; [contradiction|].
  destruct (String.eqb_spec metric "F2") as [E|_]; [contradiction|].
  split; reflexivity.
Qed.

Lemma unsupported_metric_raises_witness :
  _pairwise_distances sample_features sample_indices "cosine" =
    Raise (ValueError "Metric cosine is not supported!") /\
  _crosswise_distances sample_features sample_features (arange 3) sample_indices
    "cosine" = Raise (ValueError "Metric cosine is not supported!").
Proof.
  apply (unsupported_metric_raises "cosine"); discriminate.
Defined.

(** The concatenation performed by the fast index transform. *)
Lemma fast_concat (nn_indices : ndarray Z) (train_count nn_count : nat) :
  shape nn_indices = [train_count; nn_count] ->
  exists U,
    concatenate1 (expand_dims 1 (arange train_count)) (drop_last_col nn_indices)
      = Ok U /\
    shape U = [train_count; S (nn_count - 1)] /\
    forall t,
      item U [t; 0%nat] = Z.of_nat t /\
      forall j, item U [t; S j] = item nn_indices [t; j].
Proof.
  intros Hs. unfold concatenate1, expand_dims, drop_last_col, arange, dim.
  cbn [shape item firstn skipn app nth]. rewrite Hs. cbn [nth].
  rewrite Nat.eqb_refl. eexists. split; [reflexivity|].
  cbn [shape item]. split; [reflexivity|].
  intros t. split; [reflexivity|].
  intros j. cbn. now rewrite Nat.sub_0_r.
Qed.

(** C6 as stated fails for a neighbour-index tensor without columns: for
    an input of shape (1, 0) the transform returns shape (1, 1). *)
Lemma fast_nn_update_shape_counterexample :
  shape empty_indices = [1%nat; 0%nat] /\
  exists U,
    _fast_nn_update empty_indices = Ok U /\
    shape U = [1%nat; 1%nat] /\
    shape U <> shape empty_indices.
Proof.
  split; [reflexivity|]. eexists. split; [reflexivity|].
  split; [reflexivity|]. cbn. discriminate.
Qed.

(** C6 (amended). For a neighbour-index tensor of shape
    (train_count, nn_count), the fast-update index transform returns a
    tensor whose row [t] is [t] followed by the first [nn_count - 1] entries
    of input row [t]; it has the shape of the input when [nn_count >= 1].
    The fast-regress tensor builder, given a feature matrix with
    [train_count] rows, computes its pairwise distances and gathers its
    targets with exactly this transformed index tensor. *)
Theorem fast_nn_update_rows
    (nn_indices : ndarray Z) (train_count nn_count : nat) :
  shape nn_indices = [train_count; nn_count] ->
  exists U,
    _fast_nn_update nn_indices = Ok U /\
    shape U = [train_count; S (nn_count - 1)] /\
    ((1 <= nn_count)%nat -> shape U = shape nn_indices) /\
    (forall t, (t < train_count)%nat ->
       item U [t; 0%nat] = Z.of_nat t /\
       forall j, (j < nn_count - 1)%nat ->
         item U [t; S j] = item nn_indices [t; j]) /\
    forall metric train_features train_targets feature_count,
      shape train_features = [train_count; feature_count] ->
      _make_fast_regress_tensors metric nn_indices train_features train_targets =
      bind (_pairwise_distances train_features U metric)
        (fun pairwise_dists => Ok (pairwise_dists, gather train_targets U)).
Proof.
  intros Hs. destruct (fast_concat nn_indices train_count nn_count Hs)
    as (U & HU & Hsh & Hrows).
  exists U. unfold _fast_nn_update. rewrite Hs. cbn [unpack2 bind].
  split; [exact HU|]. split; [exact Hsh|]. split; [|split].
  - intros Hn. rewrite Hsh. f_equal. f_equal. lia.
  - intros t _. destruct (Hrows t) as [H0 Hj]. split; [exact H0|].
    intros j _. apply Hj.
  - intros metric feats targets fc Hf. unfold _make_fast_regress_tensors.
    rewrite Hf. cbn [unpack2 bind]. rewrite HU. reflexivity.
Qed.

Lemma fast_nn_update_rows_witness :
  shape sample_indices = [3%nat; 2%nat] /\
  exists U,
    _fast_nn_update sample_indices = Ok U /\
    shape U = [3%nat; 2%nat] /\
    ((1 <= 2)%nat -> shape U = shape sample_indices) /\
    (forall t, (t < 3)%nat ->
       item U [t; 0%nat] = Z.of_nat t /\
       forall j, (j < 2 - 1)%nat ->
         item U [t; S j] = item sample_indices [t; j]) /\
    forall metric train_features train_targets feature_count,
      shape train_features = [3%nat; feature_count] ->
      _make_fast_regress_tensors metric sample_indices train_features train_targets =
      bind (_pairwise_distances train_features U metric)
        (fun pairwise_dists => Ok (pairwise_dists, gather train_targets U)).
Proof.
  split; [reflexivity|].
  apply (fast_nn_update_rows sample_indices 3 2). reflexivity.
Defined.

(* ================================================================== *)
(** ** Kernels *)

Lemma rbf_item (squared_dists : ndarray R) (ix : list nat) :
  item (_rbf_fn squared_dists) ix = exp (- item squared_dists ix / 2).
Proof. reflexivity. Qed.




Section MaternGeneralProperties.

Variable gammaln : R -> R.
Variable bessel_kve : R -> R -> R.

Lemma matern_gen_unfold (dists : ndarray R) (nu : R) :
  _matern_gen_fn gammaln bessel_kve dists nu =
  let tmp := matern_gen_tmp dists nu in
  let K := if (ndim dists =? 3)%nat then set_diag3 dists 1 else dists in
  let K :=
    if (ndim K =? 2)%nat then fill K (matern_gen_const_val gammaln nu)
    else if (ndim K =? 3)%nat then fill K (matern_gen_const_val gammaln nu)
    else K in
  let K := amap2 Rmult K (amap (fun t => jnp_power t nu) tmp) in
  let K := amap2 Rmult K
             (amap2 Rdiv (amap (bessel_kve nu) tmp)
                         (amap exp (amap Rabs tmp))) in
  if (ndim K =? 3)%nat then set_diag3 K 1 else K.
Proof. reflexivity. Qed.

(** Every step of [_matern_gen_fn] keeps the shape of the input. *)
Lemma matern_gen_shape (dists : ndarray R) (nu : R) :
  shape (_matern_gen_fn gammaln bessel_kve dists nu) = shape dists.
Proof.
  unfold _matern_gen_fn, matern_gen_scaled, matern_gen_tmp, matern_gen_forced,
    matern_gen_const_val, ndim, set_diag3, fill, amap2, amap.
  repeat (match goal with
          | |- context [if ?c then _ else _] => destruct c
          end; cbn [shape]; rewrite ?bshape_same); reflexivity.
Qed.

Lemma matern_gen_tmp_shape (dists : ndarray R) (nu : R) :
  shape (matern_gen_tmp dists nu) = shape dists.
Proof.
  unfold matern_gen_tmp, matern_gen_forced, ndim, set_diag3, amap.
  destruct (List.length (shape dists) =? 3)%nat; reflexivity.
Qed.

End MaternGeneralProperties.

(** Normalises the shapes met while unfolding [_matern_gen_fn] on an input
    whose shape is given by the equation [Hs]. *)
Ltac matern_steps Hs :=
  repeat (unfold dim; rewrite ?Hs, ?bshape_same;
          cbn [List.length Nat.eqb set_diag3 fill amap amap2 shape item nth]).

Lemma jnp_power_pos (x y : R) : 0 < x -> jnp_power x y = Rpower x y.
Proof. intros H. unfold jnp_power. destruct (Req_dec_T x 0); [lra | reflexivity]. Qed.

Lemma jnp_power_zero (y : R) : y <> 0 -> jnp_power 0 y = 0.
Proof.
  intros H. unfold jnp_power. destruct (Req_dec_T 0 0) as [_|N]; [|lra].
  destruct (Req_dec_T y 0); [contradiction | reflexivity].
Qed.

Section MaternGeneralClaims.

Variable gammaln : R -> R.
Variable bessel_kve : R -> R -> R.

Lemma matern_gen_rank3_item (dists : ndarray R) (nu : R) (b n c i j : nat) :
  shape dists = [b; n; n] ->
  (c < b)%nat -> (i < n)%nat -> (j < n)%nat ->
  item (matern_gen_tmp dists nu) [c; i; j] =
    sqrt (2 * nu) * (if (i =? j)%nat then 1 else item dists [c; i; j]) /\
  item (_matern_gen_fn gammaln bessel_kve dists nu) [c; i; j] =
    if (i =? j)%nat then 1
    else
      let t := sqrt (2 * nu) * item dists [c; i; j] in
      jnp_power 2 (1 - nu) / exp (gammaln nu) * jnp_power t nu *
      (bessel_kve nu t / exp (Rabs t)).
Proof.
  intros Hs Hc Hi Hj.
  assert (Hlt : (i <? n)%nat = true) by now apply Nat.ltb_lt.
  assert (Hin : in_bounds [b; n; n] [c; i; j]) by (cbn; tauto).
  unfold _matern_gen_fn, matern_gen_scaled, matern_gen_tmp, matern_gen_forced,
    matern_gen_const_val, ndim.
  matern_steps Hs.
  rewrite !(bindex_in_bounds _ _ Hin), Hlt.
  destruct (i =? j)%nat; cbn [andb]; split; reflexivity.
Qed.

(** The stages of [_matern_gen_fn] on the diagonal of a rank-3 input. *)
Lemma matern_gen_rank3_stages (dists : ndarray R) (nu : R) (b n c i : nat) :
  shape dists = [b; n; n] ->
  (c < b)%nat -> (i < n)%nat ->
  item (matern_gen_forced dists) [c; i; i] = 1 /\
  item (matern_gen_scaled gammaln bessel_kve dists nu) [c; i; i] =
    matern_gen_const_val gammaln nu * jnp_power (sqrt (2 * nu) * 1) nu *
    (bessel_kve nu (sqrt (2 * nu) * 1) / exp (Rabs (sqrt (2 * nu) * 1))) /\
  _matern_gen_fn gammaln bessel_kve dists nu =
    set_diag3 (matern_gen_scaled gammaln bessel_kve dists nu) 1.
Proof.
  intros Hs Hc Hi.
  assert (Hlt : (i <? n)%nat = true) by now apply Nat.ltb_lt.
  assert (Hin : in_bounds [b; n; n] [c; i; i]) by (cbn; tauto).
  assert (Hsh : shape (matern_gen_scaled gammaln bessel_kve dists nu) = [b; n; n]).
  { unfold matern_gen_scaled, matern_gen_tmp, matern_gen_forced, ndim.
    matern_steps Hs. reflexivity. }
  split; [|split].
  - unfold matern_gen_forced, ndim. matern_steps Hs.
    now rewrite Hlt, Nat.eqb_refl.
  - unfold matern_gen_scaled, matern_gen_tmp, matern_gen_forced, ndim.
    matern_steps Hs.
    rewrite !(bindex_in_bounds _ _ Hin), Hlt, Nat.eqb_refl. reflexivity.
  - unfold _matern_gen_fn, ndim. cbv zeta. now rewrite Hsh.
Qed.

(** C4. On a rank-3 pairwise distance tensor of shape
    (batch_count, nn_count, nn_count) and for every smoothness [nu], the
    general Matern kernel returns a tensor of the same shape whose
    diagonal entries [b,i,i] are exactly 1.  The diagonal is forced to 1
    both before and after the Bessel evaluation:
    - before: the array [K] that enters the evaluation has 1 on its
      diagonal ([matern_gen_forced]), so the Bessel argument [tmp[b,i,i]]
      is [sqrt(2 nu) * 1] and the entry computed on the diagonal
      ([matern_gen_scaled]) is the product built from
      [bessel_kve nu (sqrt(2 nu) * 1)], whatever the input distance there;
    - after: the result is [matern_gen_scaled] with its diagonal set to 1.
    An off-diagonal entry [b,i,j] is
    [[2^(1-nu) / Gamma(nu)] * t^nu * K_nu(t) / exp(|t|)] with
    [t = sqrt(2 nu) * d], where [Gamma(nu)] is computed as
    [exp(gammaln nu)], [K_nu] is the scaled Bessel function [bessel_kve]
    and powers are those of [**]; for [nu > 0] and [d > 0] the powers are
    the real powers [Rpower]. *)
Theorem matern_gen_rank3 (dists : ndarray R) (nu : R) (batch_count nn_count : nat) :
  shape dists = [batch_count; nn_count; nn_count] ->
  shape (_matern_gen_fn gammaln bessel_kve dists nu) =
    [batch_count; nn_count; nn_count] /\
  forall b i j,
    (b < batch_count)%nat -> (i < nn_count)%nat -> (j < nn_count)%nat ->
    item (_matern_gen_fn gammaln bessel_kve dists nu) [b; i; i] = 1 /\
    item (matern_gen_tmp dists nu) [b; i; i] = sqrt (2 * nu) * 1 /\
    item (matern_gen_forced dists) [b; i; i] = 1 /\
    item (matern_gen_scaled gammaln bessel_kve dists nu) [b; i; i] =
      matern_gen_const_val gammaln nu * jnp_power (sqrt (2 * nu) * 1) nu *
      (bessel_kve nu (sqrt (2 * nu) * 1) / exp (Rabs (sqrt (2 * nu) * 1))) /\
    _matern_gen_fn gammaln bessel_kve dists nu =
      set_diag3 (matern_gen_scaled gammaln bessel_kve dists nu) 1 /\
    (i <> j ->
     let d := item dists [b; i; j] in
     let t := sqrt (2 * nu) * d in
     item (matern_gen_tmp dists nu) [b; i; j] = t /\
     item (_matern_gen_fn gammaln bessel_kve dists nu) [b; i; j] =
       jnp_power 2 (1 - nu) / exp (gammaln nu) * jnp_power t nu *
       (bessel_kve nu t / exp (Rabs t)) /\
     (0 < nu -> 0 < d ->
      item (_matern_gen_fn gammaln bessel_kve dists nu) [b; i; j] =
        Rpower 2 (1 - nu) / exp (gammaln nu) * Rpower t nu *
        (bessel_kve nu t / exp (Rabs t)))).
Proof.
  intros Hs. split; [now rewrite matern_gen_shape|].
  intros b i j Hb Hi Hj.
  destruct (matern_gen_rank3_item dists nu _ _ b i i Hs Hb Hi Hi) as [Ht Ho].
  rewrite Nat.eqb_refl in Ht, Ho.
  destruct (matern_gen_rank3_stages dists nu _ _ b i Hs Hb Hi) as (Hf & Hsc & Hfin).
  split; [exact Ho|]. split; [exact Ht|]. split; [exact Hf|].
  split; [exact Hsc|]. split; [exact Hfin|].
  intros Hne d t.
  destruct (matern_gen_rank3_item dists nu _ _ b i j Hs Hb Hi Hj) as [Ht' Ho'].
  apply Nat.eqb_neq in Hne. rewrite Hne in Ht', Ho'.
  split; [exact Ht'|]. split; [exact Ho'|].
  intros Hnu Hd. rewrite Ho'. cbv zeta. fold d. fold t.
  assert (0 < t).
  { unfold t. apply Rmult_lt_0_compat; [apply sqrt_lt_R0; lra | exact Hd]. }
  rewrite (jnp_power_pos 2), (jnp_power_pos t) by lra. reflexivity.
Qed.

End MaternGeneralClaims.

Lemma matern_gen_rank3_witness :
  shape sample_dists3 = [1%nat; 2%nat; 2%nat] /\
  shape (_matern_gen_fn (fun _ => 0) (fun _ _ => 1) sample_dists3 1) =
    [1%nat; 2%nat; 2%nat] /\
  forall b i j,
    (b < 1)%nat -> (i < 2)%nat -> (j < 2)%nat ->
    item (_matern_gen_fn (fun _ => 0) (fun _ _ => 1) sample_dists3 1) [b; i; i] = 1 /\
    item (matern_gen_tmp sample_dists3 1) [b; i; i] = sqrt (2 * 1) * 1 /\
    item (matern_gen_forced sample_dists3) [b; i; i] = 1 /\
    item (matern_gen_scaled (fun _ => 0) (fun _ _ => 1) sample_dists3 1) [b; i; i] =
      matern_gen_const_val (fun _ => 0) 1 * jnp_power (sqrt (2 * 1) * 1) 1 *
      (1 / exp (Rabs (sqrt (2 * 1) * 1))) /\
    _matern_gen_fn (fun _ => 0) (fun _ _ => 1) sample_dists3 1 =
      set_diag3 (matern_gen_scaled (fun _ => 0) (fun _ _ => 1) sample_dists3 1) 1 /\
    (i <> j ->
     let d := item sample_dists3 [b; i; j] in
     let t := sqrt (2 * 1) * d in
     item (matern_gen_tmp sample_dists3 1) [b; i; j] = t /\
     item (_matern_gen_fn (fun _ => 0) (fun _ _ => 1) sample_dists3 1) [b; i; j] =
       jnp_power 2 (1 - 1) / exp 0 * jnp_power t 1 * (1 / exp (Rabs t)) /\
     (0 < 1 -> 0 < d ->
      item (_matern_gen_fn (fun _ => 0) (fun _ _ => 1) sample_dists3 1) [b; i; j] =
        Rpower 2 (1 - 1) / exp 0 * Rpower t 1 * (1 / exp (Rabs t)))).
Proof.
  split; [reflexivity|].
  apply (matern_gen_rank3 (fun _ => 0) (fun _ _ => 1) sample_dists3 1 1 2).
  reflexivity.
Defined.

Section MaternGeneralLowRank.

Variable gammaln : R -> R.
Variable bessel_kve : R -> R -> R.

Lemma matern_gen_low_rank_item (dists : ndarray R) (nu : R) (ix : list nat) :
  ndim dists = 1%nat \/ ndim dists = 2%nat ->
  in_bounds (shape dists) ix ->
  item (matern_gen_tmp dists nu) ix = sqrt (2 * nu) * item dists ix /\
  item (_matern_gen_fn gammaln bessel_kve dists nu) ix =
    (if (ndim dists =? 2)%nat then matern_gen_const_val gammaln nu
     else item dists ix) *
    jnp_power (sqrt (2 * nu) * item dists ix) nu *
    (bessel_kve nu (sqrt (2 * nu) * item dists ix) /
     exp (Rabs (sqrt (2 * nu) * item dists ix))).
Proof.
  intros Hr Hin.
  unfold _matern_gen_fn, matern_gen_scaled, matern_gen_tmp, matern_gen_forced,
    matern_gen_const_val, ndim in *.
  destruct Hr as [Hr|Hr]; rewrite Hr; matern_steps Hr;
    rewrite !(bindex_in_bounds _ _ Hin); split; reflexivity.
Qed.

(** C10. The zero-distance special case of the general Matern kernel is
    applied to rank-3 inputs only.  In a rank-1 or rank-2 distance tensor
    an entry whose distance is 0 reaches the Bessel evaluation with
    argument [t = sqrt(2 nu) * 0 = 0], and the returned entry is the
    product computed from [bessel_kve nu 0] like any other entry; it is
    not overwritten with 1.0 (for [nu > 0] it is different from 1).  The
    leading factor is [const_val] for rank 2, and the distance entry
    itself for rank 1, where the code does not write [const_val]. *)
Theorem matern_gen_low_rank_zero_distance
    (dists : ndarray R) (nu : R) (ix : list nat) :
  ndim dists = 1%nat \/ ndim dists = 2%nat ->
  in_bounds (shape dists) ix ->
  item dists ix = 0 ->
  item (matern_gen_tmp dists nu) ix = 0 /\
  item (_matern_gen_fn gammaln bessel_kve dists nu) ix =
    (if (ndim dists =? 2)%nat then matern_gen_const_val gammaln nu else 0) *
    jnp_power 0 nu * (bessel_kve nu 0 / exp (Rabs 0)) /\
  (0 < nu -> item (_matern_gen_fn gammaln bessel_kve dists nu) ix <> 1).
Proof.
  intros Hr Hin Hz.
  destruct (matern_gen_low_rank_item dists nu ix Hr Hin) as [Ht Ho].
  rewrite Hz, Rmult_0_r in Ht, Ho.
  split; [exact Ht|]. split; [exact Ho|].
  intros Hnu. rewrite Ho, jnp_power_zero by lra. lra.
Qed.

End MaternGeneralLowRank.

Lemma matern_gen_low_rank_zero_distance_witness :
  (ndim sample_dists2 = 1%nat \/ ndim sample_dists2 = 2%nat) /\
  in_bounds (shape sample_dists2) [0%nat; 0%nat] /\
  item sample_dists2 [0%nat; 0%nat] = 0 /\
  item (matern_gen_tmp sample_dists2 1) [0%nat; 0%nat] = 0 /\
  item (_matern_gen_fn (fun _ => 0) (fun _ _ => 1) sample_dists2 1)
       [0%nat; 0%nat] =
    (if (ndim sample_dists2 =? 2)%nat
     then matern_gen_const_val (fun _ => 0) 1 else 0) *
    jnp_power 0 1 * (1 / exp (Rabs 0)) /\
  (0 < 1 ->
   item (_matern_gen_fn (fun _ => 0) (fun _ _ => 1) sample_dists2 1)
        [0%nat; 0%nat] <> 1).
Proof.
  assert (Hr : ndim sample_dists2 = 1%nat \/ ndim sample_dists2 = 2%nat)
    by (right; reflexivity).
  assert (Hin : in_bounds (shape sample_dists2) [0%nat; 0%nat])
    by (cbn; repeat split; lia).
  assert (Hz : item sample_dists2 [0%nat; 0%nat] = 0) by reflexivity.
  split; [exact Hr|]. split; [exact Hin|]. split; [exact Hz|].
  exact (matern_gen_low_rank_zero_distance (fun _ => 0) (fun _ _ => 1)
           sample_dists2 1 [0%nat; 0%nat] Hr Hin Hz).
Defined.

(* ================================================================== *)
(** ** The batched local solver *)

Lemma reshape_to_ok {A : Type} (sh : list nat) (a : ndarray A) :
  size sh = size (shape a) -> reshape_to sh a = Ok (reshape sh a).
Proof. intros H. unfold reshape_to. now rewrite H, Nat.eqb_refl. Qed.

(** Inserting and removing an axis of extent 1 by [reshape]. *)
Lemma reshape_insert_middle (a : ndarray R) (b n i j : nat) :
  shape a = [b; n] -> (i < b)%nat -> (j < n)%nat ->
  item (reshape [b; 1%nat; n] a) [i; 0%nat; j] = item a [i; j].
Proof.
  intros Hs Hi Hj. apply reshape_item.
  - rewrite Hs. cbn. tauto.
  - rewrite Hs. cbn. lia.
Qed.

Lemma reshape_insert_last (a : ndarray R) (b n i j : nat) :
  shape a = [b; n] -> (i < b)%nat -> (j < n)%nat ->
  item (reshape [b; n; 1%nat] a) [i; j; 0%nat] = item a [i; j].
Proof.
  intros Hs Hi Hj. apply reshape_item.
  - rewrite Hs. cbn. tauto.
  - rewrite Hs. cbn. lia.
Qed.

Lemma reshape_remove_middle (a : ndarray R) (b r i k : nat) :
  shape a = [b; 1%nat; r] -> (i < b)%nat -> (k < r)%nat ->
  item (reshape [b; r] a) [i; k] = item a [i; 0%nat; k].
Proof.
  intros Hs Hi Hk. apply reshape_item.
  - rewrite Hs. cbn. repeat split; lia.
  - rewrite Hs. cbn. lia.
Qed.

Lemma reshape_remove_last (a : ndarray R) (b n i j : nat) :
  shape a = [b; n; 1%nat] -> (i < b)%nat -> (j < n)%nat ->
  item (reshape [b; n] a) [i; j] = item a [i; j; 0%nat].
Proof.
  intros Hs Hi Hj. apply reshape_item.
  - rewrite Hs. cbn. repeat split; lia.
  - rewrite Hs. cbn. lia.
Qed.

(** The batched product of a (b, m, n) array with a (b, n, r) array. *)
Lemma matmul_ok (a c : ndarray R) (b m n r : nat) :
  shape a = [b; m; n] -> shape c = [b; n; r] ->
  exists M,
    matmul a c = Ok M /\ shape M = [b; m; r] /\
    forall i p k, (i < b)%nat ->
      item M [i; p; k] = sum_n n (fun q => item a [i; p; q] * item c [i; q; k]).
Proof.
  intros Ha Hc. unfold matmul, dim. rewrite Ha, Hc. cbn [nth].
  rewrite !Nat.eqb_refl. cbn [negb orb].
  eexists. split; [reflexivity|]. cbn [shape item]. split.
  - now destruct (b =? 1)%nat.
  - intros i p k Hi. now rewrite bsel_in_range.
Qed.

(** The solution of a non-singular system is the inverse applied to the
    right-hand side. *)
Lemma solution_is_inverse_times_rhs (n r : nat) (K Kinv T X : ndarray R) (i : nat) :
  inverse_at n K Kinv i -> solves_at n r K T X i ->
  forall q k, (q < n)%nat -> (k < r)%nat ->
    item X [i; q; k] = sum_n n (fun m => item Kinv [i; q; m] * item T [i; m; k]).
Proof.
  intros [Hl _] Hsol q k Hq Hk.
  rewrite (sum_n_ext n _
    (fun m => sum_n n (fun p => item Kinv [i; q; m] * item K [i; m; p] * item X [i; p; k]))).
  - rewrite sum_n_swap.
    rewrite (sum_n_ext n _ (fun p => delta q p * item X [i; p; k])).
    + now rewrite sum_n_delta_l.
    + intros p Hp. rewrite sum_n_scal_r. now rewrite Hl.
  - intros m Hm. rewrite <- (Hsol m k Hm Hk), <- sum_n_scal_l.
    apply sum_n_ext. intros p _. ring.
Qed.

(** The inverse applied to the right-hand side solves the system. *)
Lemma inverse_times_rhs_solves (n r : nat) (K Kinv T X : ndarray R) (i : nat) :
  inverse_at n K Kinv i ->
  (forall q k, (q < n)%nat -> (k < r)%nat ->
     item X [i; q; k] = sum_n n (fun m => item Kinv [i; q; m] * item T [i; m; k])) ->
  solves_at n r K T X i.
Proof.
  intros [_ Hr] HX p k Hp Hk.
  rewrite (sum_n_ext n _
    (fun q => sum_n n (fun m => item K [i; p; q] * item Kinv [i; q; m] * item T [i; m; k]))).
  - rewrite sum_n_swap.
    rewrite (sum_n_ext n _ (fun m => delta p m * item T [i; m; k])).
    + now rewrite sum_n_delta_l.
    + intros m Hm. rewrite sum_n_scal_r. now rewrite Hr.
  - intros q Hq. rewrite (HX q k Hq Hk), <- sum_n_scal_l.
    apply sum_n_ext. intros m _. ring.
Qed.

(** [reference_solve] meets the contract of the solver. *)
Lemma reference_solve_ok : solver_spec reference_solve.
Proof.
  intros K T b n r HK HT. split; [exact HT|].
  intros i Hi Hns.
  apply inverse_times_rhs_solves with
    (Kinv := epsilon inhabited_ndarray (fun M => inverse_at n K M i)).
  - apply epsilon_spec. exact Hns.
  - intros q k _ _. unfold reference_solve, dim. rewrite HK. reflexivity.
Qed.

Section SolverClaims.

Variable linalg_solve : ndarray R -> ndarray R -> ndarray R.
Hypothesis linalg_solve_ok : solver_spec linalg_solve.

Lemma compute_solve_entries (K Kcross T : ndarray R) (b n r : nat) :
  shape K = [b; n; n] -> shape Kcross = [b; n] -> shape T = [b; n; r] ->
  exists out,
    _muygps_compute_solve linalg_solve K Kcross T = Ok out /\
    shape out = [b; r] /\
    forall i k, (i < b)%nat -> (k < r)%nat ->
      item out [i; k] =
      sum_n n (fun q => item Kcross [i; q] * item (linalg_solve K T) [i; q; k]).
Proof.
  intros HK HKc HT.
  destruct (linalg_solve_ok K T b n r HK HT) as [HX _].
  unfold _muygps_compute_solve. rewrite HT. cbn [unpack3 bind].
  rewrite reshape_to_ok by (rewrite HKc; cbn; lia). cbn [bind].
  destruct (matmul_ok (reshape [b; 1%nat; n] Kcross) (linalg_solve K T) b 1%nat n r)
    as (M & HM & HsM & HiM); [reflexivity | exact HX |].
  rewrite HM. cbn [bind].
  rewrite reshape_to_ok by (rewrite HsM; cbn; lia).
  eexists. split; [reflexivity|]. split; [reflexivity|].
  intros i k Hi Hk.
  rewrite (reshape_remove_middle M b r) by assumption.
  rewrite HiM by assumption.
  apply sum_n_ext. intros q Hq.
  now rewrite (reshape_insert_middle Kcross b n).
Qed.

(** C1. For a batch of non-singular covariance matrices [K], a
    cross-covariance [Kcross] of shape (batch_count, nn_count) and targets
    [T] of shape (batch_count, nn_count, response_count): the fast
    precompute returns coefficients that solve [K . coeffs = T], that is
    [coeffs = K^-1 . T] per batch element, and the fast-regress
    contraction [out[i,k] = sum_j Kcross[i,j] * coeffs[i,j,k]] of these
    coefficients is the tensor returned by the direct batched solve on the
    same [K], [Kcross] and [T]. *)
Theorem fast_regress_matches_direct_solve
    (K Kcross T : ndarray R) (batch_count nn_count response_count : nat) :
  shape K = [batch_count; nn_count; nn_count] ->
  shape Kcross = [batch_count; nn_count] ->
  shape T = [batch_count; nn_count; response_count] ->
  (forall i, (i < batch_count)%nat -> nonsingular_at nn_count K i) ->
  let coeffs := _muygps_fast_regress_precompute linalg_solve K T in
  let fast := _muygps_fast_regress_solve Kcross coeffs in
  (forall i Kinv, (i < batch_count)%nat -> inverse_at nn_count K Kinv i ->
     forall j k, (j < nn_count)%nat -> (k < response_count)%nat ->
       item coeffs [i; j; k] =
       sum_n nn_count (fun m => item Kinv [i; j; m] * item T [i; m; k])) /\
  (forall i k, (i < batch_count)%nat -> (k < response_count)%nat ->
     item fast [i; k] =
     sum_n nn_count (fun j => item Kcross [i; j] * item coeffs [i; j; k])) /\
  exists direct,
    _muygps_compute_solve linalg_solve K Kcross T = Ok direct /\
    array_eq fast direct.
Proof.
  intros HK HKc HT Hns coeffs fast.
  destruct (linalg_solve_ok K T _ _ _ HK HT) as [HX Hsol].
  assert (Hfast : forall i k,
    item fast [i; k] =
    sum_n nn_count (fun j => item Kcross [i; j] * item coeffs [i; j; k])).
  { intros i k. unfold fast, _muygps_fast_regress_solve, einsum_ij_ijk_ik, dim.
    cbn [item]. now rewrite HKc. }
  split; [|split].
  - intros i Kinv Hi Hinv j k Hj Hk.
    apply (solution_is_inverse_times_rhs nn_count response_count K Kinv T);
      try assumption.
    apply Hsol; [exact Hi | now exists Kinv].
  - intros i k _ _. apply Hfast.
  - destruct (compute_solve_entries K Kcross T _ _ _ HK HKc HT)
      as (direct & Hd & Hsd & Hid).
    exists direct. split; [exact Hd|]. split.
    + rewrite Hsd. unfold fast, _muygps_fast_regress_solve, einsum_ij_ijk_ik, dim.
      cbn [shape]. unfold coeffs, _muygps_fast_regress_precompute.
      now rewrite HKc, HX.
    + intros ix Hin.
      assert (Hsf : shape fast = [batch_count; response_count]).
      { unfold fast, _muygps_fast_regress_solve, einsum_ij_ijk_ik, dim.
        cbn [shape]. unfold coeffs, _muygps_fast_regress_precompute.
        now rewrite HKc, HX. }
      rewrite Hsf in Hin.
      destruct ix as [|i [|k [|? ?]]]; cbn in Hin; try tauto.
      destruct Hin as (Hi & Hk & _).
      rewrite Hfast, Hid by assumption. reflexivity.
Qed.

(** C2. For [K] of shape (batch_count, nn_count, nn_count), [Kcross] of
    shape (batch_count, nn_count) and neighbour targets of shape
    (batch_count, nn_count, response_count), the batched solve returns a
    tensor of shape (batch_count, response_count).  At a batch element [b]
    whose matrix [K[b]] is non-singular, row [b] is
    [Kcross[b] . K[b]^-1 . targets[b]]; it is obtained as [Kcross[b] . x]
    from the solution [x] of the linear system [K[b] . x = targets[b]]
    returned by the solver, and no inverse is formed. *)
Theorem compute_solve_is_kcross_kinv_targets
    (K Kcross targets : ndarray R) (batch_count nn_count response_count : nat) :
  shape K = [batch_count; nn_count; nn_count] ->
  shape Kcross = [batch_count; nn_count] ->
  shape targets = [batch_count; nn_count; response_count] ->
  exists out,
    _muygps_compute_solve linalg_solve K Kcross targets = Ok out /\
    shape out = [batch_count; response_count] /\
    forall b Kinv, (b < batch_count)%nat -> inverse_at nn_count K Kinv b ->
      solves_at nn_count response_count K targets (linalg_solve K targets) b /\
      forall k, (k < response_count)%nat ->
        item out [b; k] =
          sum_n nn_count (fun p =>
            item Kcross [b; p] * item (linalg_solve K targets) [b; p; k]) /\
        item out [b; k] =
          sum_n nn_count (fun p =>
            item Kcross [b; p] *
            sum_n nn_count (fun q => item Kinv [b; p; q] * item targets [b; q; k])).
Proof.
  intros HK HKc HT.
  destruct (linalg_solve_ok K targets _ _ _ HK HT) as [HX Hsol].
  destruct (compute_solve_entries K Kcross targets _ _ _ HK HKc HT)
    as (out & Ho & Hso & Hio).
  exists out. split; [exact Ho|]. split; [exact Hso|].
  intros b Kinv Hb Hinv.
  assert (Hs : solves_at nn_count response_count K targets
                 (linalg_solve K targets) b)
    by (apply Hsol; [exact Hb | now exists Kinv]).
  split; [exact Hs|].
  intros k Hk. split; [now apply Hio|].
  rewrite Hio by assumption. apply sum_n_ext. intros p Hp. f_equal.
  now apply (solution_is_inverse_times_rhs nn_count response_count K Kinv targets).
Qed.

End SolverClaims.

(** The quadratic form of a bordered matrix, split along the border. *)
Lemma quad_form_border (n : nat) (M : nat -> nat -> R) (k v : nat -> R) :
  quad_form (S n) (border n M k) v =
  quad_form n M v + 2 * v n * sum_n n (fun p => k p * v p) + v n * v n.
Proof.
  unfold quad_form, border. cbn [sum_n].
  rewrite Nat.ltb_irrefl.
  rewrite (sum_n_ext n _
    (fun p => sum_n n (fun q => v p * M p q * v q) + v n * (k p * v p))).
  - rewrite sum_n_plus, sum_n_scal_l.
    rewrite (sum_n_ext n (fun q => v n * _ * v q) (fun q => v n * (k q * v q))).
    + rewrite sum_n_scal_l. ring.
    + intros q Hq. apply Nat.ltb_lt in Hq. rewrite Hq. ring.
  - intros p Hp. pose proof Hp as Hp'. apply Nat.ltb_lt in Hp'. rewrite Hp'.
    f_equal; [|ring].
    apply sum_n_ext. intros q Hq. apply Nat.ltb_lt in Hq. now rewrite Hq.
Qed.

(** Schur-complement bounds: if [M . x = k], [M] is positive semi-definite
    and so is [M] bordered by [k] with corner 1, then [k . x] lies in
    [0, 1]. *)
Lemma schur_complement_bounds (n : nat) (M : nat -> nat -> R) (k x : nat -> R) :
  (forall p, (p < n)%nat -> sum_n n (fun q => M p q * x q) = k p) ->
  psd n M -> psd (S n) (border n M k) ->
  0 <= sum_n n (fun p => k p * x p) <= 1.
Proof.
  intros Hsol HM HJ.
  assert (Hq : forall s, quad_form n M (fun p => s * x p) =
                         s * s * sum_n n (fun p => k p * x p)).
  { intros s. unfold quad_form. rewrite <- sum_n_scal_l.
    apply sum_n_ext. intros p Hp. rewrite <- (Hsol p Hp).
    rewrite <- !sum_n_scal_r, <- sum_n_scal_l.
    apply sum_n_ext. intros q _. ring. }
  split.
  - specialize (HM (fun p => 1 * x p)). rewrite Hq in HM. lra.
  - specialize (HJ (fun p => if (p <? n)%nat then (-1) * x p else 1)).
    rewrite quad_form_border in HJ. rewrite Nat.ltb_irrefl in HJ.
    assert (E1 : quad_form n M (fun p => if (p <? n)%nat then (-1) * x p else 1) =
                 quad_form n M (fun p => (-1) * x p)).
    { unfold quad_form. apply sum_n_ext. intros p Hp.
      apply sum_n_ext. intros q Hq'.
      apply Nat.ltb_lt in Hp, Hq'. now rewrite Hp, Hq'. }
    assert (E2 : sum_n n (fun p => k p * (if (p <? n)%nat then (-1) * x p else 1)) =
                 - sum_n n (fun p => k p * x p)).
    { rewrite (sum_n_ext n _ (fun p => (-1) * (k p * x p))).
      - rewrite sum_n_scal_l. ring.
      - intros p Hp. apply Nat.ltb_lt in Hp. rewrite Hp. ring. }
    rewrite E1, E2, Hq in HJ. lra.
Qed.

Section VarianceClaims.

Variable linalg_solve : ndarray R -> ndarray R -> ndarray R.
Hypothesis linalg_solve_ok : solver_spec linalg_solve.

Lemma diagonal_variance_entries (K Kcross : ndarray R) (b n : nat) :
  shape K = [b; n; n] -> shape Kcross = [b; n] ->
  exists V,
    _muygps_compute_diagonal_variance linalg_solve K Kcross = Ok V /\
    shape V = [b] /\
    forall i, (i < b)%nat ->
      item V [i] =
      1 - sum_n n (fun p =>
            item Kcross [i; p] *
            item (linalg_solve K (reshape [b; n; 1%nat] Kcross)) [i; p; 0%nat]).
Proof.
  intros HK HKc.
  destruct (linalg_solve_ok K (reshape [b; n; 1%nat] Kcross) b n 1%nat HK eq_refl)
    as [HX _].
  unfold _muygps_compute_diagonal_variance. rewrite HKc. cbn [unpack2 bind].
  rewrite reshape_to_ok by (rewrite HKc; cbn; lia). cbn [bind].
  rewrite reshape_to_ok by (rewrite HX; cbn; lia). cbn [bind].
  eexists. split; [reflexivity|].
  unfold sum_last, amap2, amap. cbn [shape item reshape].
  rewrite HKc, bshape_same. cbn [removelast last]. split; [reflexivity|].
  intros i Hi. f_equal. apply sum_n_ext. intros p Hp. cbn [app].
  rewrite (bindex_in_bounds [b; n] [i; p]) by (cbn; tauto).
  f_equal.
  change (item (reshape [b; n] (linalg_solve K (reshape [b; n; 1%nat] Kcross)))
            [i; p] =
          item (linalg_solve K (reshape [b; n; 1%nat] Kcross)) [i; p; 0%nat]).
  now apply (reshape_remove_last _ b n).
Qed.

(** The returned variance in terms of the inverse: at a non-singular batch
    element the solver output is [K[b]^-1 . Kcross[b]]. *)
Lemma diagonal_variance_value
    (K Kcross V Kinv : ndarray R) (batch_count nn_count b : nat) :
  shape K = [batch_count; nn_count; nn_count] ->
  shape Kcross = [batch_count; nn_count] ->
  _muygps_compute_diagonal_variance linalg_solve K Kcross = Ok V ->
  (b < batch_count)%nat ->
  inverse_at nn_count K Kinv b ->
  let x := linalg_solve K (reshape [batch_count; nn_count; 1%nat] Kcross) in
  (forall p, (p < nn_count)%nat ->
     sum_n nn_count (fun q => slice K b p q * item x [b; q; 0%nat]) =
     item Kcross [b; p]) /\
  item V [b] =
    1 - sum_n nn_count (fun p => item Kcross [b; p] * item x [b; p; 0%nat]) /\
  item V [b] =
    1 - sum_n nn_count (fun p =>
          item Kcross [b; p] *
          sum_n nn_count (fun q => item Kinv [b; p; q] * item Kcross [b; q])).
Proof.
  intros HK HKc HV Hb Hinv x.
  destruct (diagonal_variance_entries K Kcross _ _ HK HKc) as (V' & HV' & _ & HiV).
  rewrite HV in HV'. injection HV' as <-.
  set (Kc3 := reshape [batch_count; nn_count; 1%nat] Kcross) in *.
  destruct (linalg_solve_ok K Kc3 batch_count nn_count 1%nat HK eq_refl) as [_ Hsol].
  assert (Hs : solves_at nn_count 1%nat K Kc3 x b)
    by (apply Hsol; [exact Hb | now exists Kinv]).
  assert (Hrhs : forall p, (p < nn_count)%nat ->
            item Kc3 [b; p; 0%nat] = item Kcross [b; p])
    by (intros p Hp; now apply (reshape_insert_last Kcross batch_count nn_count)).
  split; [|split].
  - intros p Hp. unfold slice. rewrite (Hs p 0%nat Hp) by lia. now apply Hrhs.
  - exact (HiV b Hb).
  - rewrite (HiV b Hb). f_equal. apply sum_n_ext. intros p Hp. f_equal.
    fold x.
    rewrite (solution_is_inverse_times_rhs nn_count 1%nat K Kinv Kc3 x b Hinv Hs
               p 0%nat) by lia.
    apply sum_n_ext. intros q Hq. now rewrite Hrhs.
Qed.

(** C3. At a batch element [b] where [K[b]] is symmetric positive
    semi-definite with unit diagonal, [Kinv[b]] is its inverse, and the
    joint correlation matrix ([K[b]] bordered by [Kcross[b]], with prior
    variance 1 for the query point) is positive semi-definite,
    [diagonal_variance(K, Kcross)] returns at position [b] the scalar
    [1 - Kcross[b] . K[b]^-1 . Kcross[b]], and this value lies in [0, 1]. *)
Theorem diagonal_variance_in_unit_interval
    (K Kcross : ndarray R) (batch_count nn_count : nat) :
  shape K = [batch_count; nn_count; nn_count] ->
  shape Kcross = [batch_count; nn_count] ->
  exists V,
    _muygps_compute_diagonal_variance linalg_solve K Kcross = Ok V /\
    shape V = [batch_count] /\
    forall b Kinv,
      (b < batch_count)%nat ->
      inverse_at nn_count K Kinv b ->
      symmetric nn_count (slice K b) ->
      psd nn_count (slice K b) ->
      unit_diagonal nn_count (slice K b) ->
      psd (S nn_count) (joint nn_count K Kcross b) ->
      item V [b] =
        1 - sum_n nn_count (fun p =>
              item Kcross [b; p] *
              sum_n nn_count (fun q => item Kinv [b; p; q] * item Kcross [b; q])) /\
      0 <= item V [b] <= 1.
Proof.
  intros HK HKc.
  destruct (diagonal_variance_entries K Kcross _ _ HK HKc) as (V & HV & HsV & _).
  exists V. split; [exact HV|]. split; [exact HsV|].
  intros b Kinv Hb Hinv _ Hpsd _ Hjoint.
  destruct (diagonal_variance_value K Kcross V Kinv _ _ b HK HKc HV Hb Hinv)
    as (Hsys & Hx & Hval).
  split; [exact Hval|].
  rewrite Hx.
  pose proof (schur_complement_bounds nn_count (slice K b)
                (fun p => item Kcross [b; p]) _ Hsys Hpsd Hjoint) as Hbounds.
  cbv beta in Hbounds. lra.
Qed.

End VarianceClaims.

(* ================================================================== *)
(** ** The sample covariance matrix *)

Lemma sample_K_inverse (i : nat) : inverse_at 2 sample_K sample_K i.
Proof.
  split; intros p q Hp Hq;
    destruct p as [|[|p]]; try lia; destruct q as [|[|q]]; try lia;
    cbn; unfold delta; cbn; lra.
Qed.

Lemma sample_K_nonsingular (i : nat) : nonsingular_at 2 sample_K i.
Proof. exists sample_K. apply sample_K_inverse. Qed.

Lemma sample_K_symmetric : symmetric 2 (slice sample_K 0).
Proof.
  intros p q Hp Hq. unfold slice, sample_K, delta. cbn [item].
  now rewrite Nat.eqb_sym.
Qed.

Lemma sample_K_unit_diagonal : unit_diagonal 2 (slice sample_K 0).
Proof.
  intros p _. unfold slice, sample_K, delta. cbn [item].
  now rewrite Nat.eqb_refl.
Qed.

Lemma sample_K_psd : psd 2 (slice sample_K 0).
Proof.
  intros v. unfold quad_form, slice, sample_K, delta. cbn.
  pose proof (pow2_ge_0 (v 0%nat)). pose proof (pow2_ge_0 (v 1%nat)). nra.
Qed.

Lemma sample_joint_psd : psd 3 (joint 2 sample_K sample_Kcross 0).
Proof.
  intros v.
  unfold quad_form, joint, border, slice, sample_K, sample_Kcross, delta. cbn.
  pose proof (pow2_ge_0 (v 0%nat + v 2%nat / 2)).
  pose proof (pow2_ge_0 (v 1%nat)). pose proof (pow2_ge_0 (v 2%nat)). nra.
Qed.

Lemma fast_regress_matches_direct_solve_witness :
  shape sample_K = [1%nat; 2%nat; 2%nat] /\
  shape sample_Kcross = [1%nat; 2%nat] /\
  shape sample_nn_targets = [1%nat; 2%nat; 1%nat] /\
  (forall i, (i < 1)%nat -> nonsingular_at 2 sample_K i) /\
  exists direct,
    _muygps_compute_solve reference_solve sample_K sample_Kcross sample_nn_targets
      = Ok direct /\
    array_eq
      (_muygps_fast_regress_solve sample_Kcross
         (_muygps_fast_regress_precompute reference_solve sample_K sample_nn_targets))
      direct.
Proof.
  split; [reflexivity|]. split; [reflexivity|]. split; [reflexivity|].
  split; [intros i _; apply sample_K_nonsingular|].
  exact (proj2 (proj2
    (fast_regress_matches_direct_solve reference_solve reference_solve_ok
       sample_K sample_Kcross sample_nn_targets 1 2 1
       eq_refl eq_refl eq_refl (fun i _ => sample_K_nonsingular i)))).
Defined.

Lemma compute_solve_is_kcross_kinv_targets_witness :
  shape sample_K = [1%nat; 2%nat; 2%nat] /\
  shape sample_Kcross = [1%nat; 2%nat] /\
  shape sample_nn_targets = [1%nat; 2%nat; 1%nat] /\
  inverse_at 2 sample_K sample_K 0 /\
  exists out,
    _muygps_compute_solve reference_solve sample_K sample_Kcross sample_nn_targets
      = Ok out /\
    shape out = [1%nat; 1%nat] /\
    item out [0%nat; 0%nat] =
      sum_n 2 (fun p =>
        item sample_Kcross [0%nat; p] *
        sum_n 2 (fun q => item sample_K [0%nat; p; q] *
                          item sample_nn_targets [0%nat; q; 0%nat])).
Proof.
  split; [reflexivity|]. split; [reflexivity|]. split; [reflexivity|].
  split; [apply sample_K_inverse|].
  destruct (compute_solve_is_kcross_kinv_targets reference_solve reference_solve_ok
              sample_K sample_Kcross sample_nn_targets 1 2 1
              eq_refl eq_refl eq_refl) as (out & Ho & Hs & Hrow).
  exists out. split; [exact Ho|]. split; [exact Hs|].
  exact (proj2 (proj2 (Hrow 0%nat sample_K (Nat.lt_0_succ 0) (sample_K_inverse 0))
                  0%nat (Nat.lt_0_succ 0))).
Defined.

Lemma diagonal_variance_in_unit_interval_witness :
  shape sample_K = [1%nat; 2%nat; 2%nat] /\
  shape sample_Kcross = [1%nat; 2%nat] /\
  inverse_at 2 sample_K sample_K 0 /\
  symmetric 2 (slice sample_K 0) /\
  psd 2 (slice sample_K 0) /\
  unit_diagonal 2 (slice sample_K 0) /\
  psd 3 (joint 2 sample_K sample_Kcross 0) /\
  exists V,
    _muygps_compute_diagonal_variance reference_solve sample_K sample_Kcross = Ok V /\
    shape V = [1%nat] /\
    item V [0%nat] =
      1 - sum_n 2 (fun p =>
            item sample_Kcross [0%nat; p] *
            sum_n 2 (fun q => item sample_K [0%nat; p; q] *
                              item sample_Kcross [0%nat; q])) /\
    0 <= item V [0%nat] <= 1.
Proof.
  split; [reflexivity|]. split; [reflexivity|].
  split; [apply sample_K_inverse|]. split; [apply sample_K_symmetric|].
  split; [apply sample_K_psd|]. split; [apply sample_K_unit_diagonal|].
  split; [apply sample_joint_psd|].
  destruct (diagonal_variance_in_unit_interval reference_solve reference_solve_ok
              sample_K sample_Kcross 1 2 eq_refl eq_refl) as (V & HV & Hs & Hb).
  exists V. split; [exact HV|]. split; [exact Hs|].
  exact (Hb 0%nat sample_K (Nat.lt_0_succ 0) (sample_K_inverse 0)
           sample_K_symmetric sample_K_psd sample_K_unit_diagonal sample_joint_psd).
Defined.

(** On the sample batch the posterior variance is [1 - 1/4 = 3/4]. *)
Example sample_diagonal_variance_value :
  exists V,
    _muygps_compute_diagonal_variance reference_solve sample_K sample_Kcross = Ok V /\
    item V [0%nat] = 3 / 4.
Proof.
  destruct (diagonal_variance_entries reference_solve reference_solve_ok
              sample_K sample_Kcross 1 2 eq_refl eq_refl) as (V & HV & _ & _).
  exists V. split; [exact HV|].
  destruct (diagonal_variance_value reference_solve reference_solve_ok
              sample_K sample_Kcross V sample_K 1 2 0 eq_refl eq_refl HV
              (Nat.lt_0_succ 0) (sample_K_inverse 0)) as (_ & _ & Hv).
  rewrite Hv. cbn. unfold delta. cbn. lra.
Qed.

(* ================================================================== *)
(** ** Values on the sample arrays *)

(** The neighbours of the third point are (0,0) and (3,4): their "l2"
    distance is 5 and their "F2" distance 25. *)
Example sample_pairwise_values :
  exists Dl D2,
    _pairwise_distances sample_features sample_indices "l2" = Ok Dl /\
    _pairwise_distances sample_features sample_indices "F2" = Ok D2 /\
    item Dl [2%nat; 0%nat; 1%nat] = 5 /\ item D2 [2%nat; 0%nat; 1%nat] = 25.
Proof.
  do 2 eexists. split; [reflexivity|]. split; [reflexivity|].
  assert (H : item (_F2 (_diffs (gather sample_features sample_indices)))
                [2%nat; 0%nat; 1%nat] = 25).
  { rewrite (F2_item sample_features sample_indices 3 2 3 2) by (reflexivity || lia).
    cbn. change (Pos.to_nat 1) with 1%nat. cbn. lra. }
  split; [|exact H].
  unfold _l2, amap. cbn [item]. rewrite H.
  replace 25 with (5 * 5) by lra. apply sqrt_square. lra.
Qed.

(** The fast index transform turns [[1, 2], [0, 2], [0, 1]] into
    [[0, 1], [1, 0], [2, 0]]. *)
Example sample_fast_nn_update :
  exists U,
    _fast_nn_update sample_indices = Ok U /\
    shape U = [3%nat; 2%nat] /\
    item U [0%nat; 0%nat] = 0%Z /\ item U [0%nat; 1%nat] = 1%Z /\
    item U [1%nat; 0%nat] = 1%Z /\ item U [1%nat; 1%nat] = 0%Z /\
    item U [2%nat; 0%nat] = 2%Z /\ item U [2%nat; 1%nat] = 0%Z.
Proof. eexists. split; [reflexivity|]. cbn. repeat split. Qed.

(** Matern with [nu = 1/2] at distance 0 is exactly 1. *)
Example matern_05_at_zero (dists : ndarray R) (ix : list nat) :
  item dists ix = 0 -> item (_matern_05_fn dists) ix = 1.
Proof.
  intros H. unfold _matern_05_fn, amap. cbn [item].
  rewrite H, Ropp_0. apply exp_0.
Qed.

(** The fast-regress tensors of the sample training set under "F2": the
    second neighbour slot of point 0 holds the target of its first
    neighbour, point 1. *)
Example sample_fast_regress_tensors :
  exists pairwise_dists_fast batch_nn_targets_fast,
    _make_fast_regress_tensors "F2" sample_indices sample_features sample_targets
      = Ok (pairwise_dists_fast, batch_nn_targets_fast) /\
    shape batch_nn_targets_fast = [3%nat; 2%nat; 1%nat] /\
    item batch_nn_targets_fast [0%nat; 1%nat; 0%nat] = 2.
Proof.
  do 2 eexists. split; [reflexivity|]. split; [reflexivity|].
  cbn. change (Pos.to_nat 1) with 1%nat. cbn. lra.
Qed.

(* ================================================================== *)
(** ** Crosswise distances *)

(** The feature vector of the [b]-th query point. *)
Lemma gather_rank1_item (data : ndarray R) (data_indices : ndarray Z)
    (point_count feature_count batch_count b k : nat) :
  shape data = [point_count; feature_count] ->
  shape data_indices = [batch_count] ->
  shape (gather data data_indices) = [batch_count; feature_count] /\
  item (gather data data_indices) [b; k] =
    item data [norm_index point_count (item data_indices [b]); k].
Proof.
  intros Hd Hi. unfold gather, ndim, dim. cbn [shape item].
  rewrite Hd, Hi. split; reflexivity.
Qed.

Section CrosswiseEntries.

Variables (data nn_data : ndarray R) (data_indices nn_indices : ndarray Z).
Variables (point_count nn_point_count feature_count batch_count nn_count : nat).
Hypothesis data_shape : shape data = [point_count; feature_count].
Hypothesis nn_data_shape : shape nn_data = [nn_point_count; feature_count].
Hypothesis data_indices_shape : shape data_indices = [batch_count].
Hypothesis nn_indices_shape : shape nn_indices = [batch_count; nn_count].

Lemma crosswise_diffs_shape :
  shape (_crosswise_diffs (gather data data_indices) (gather nn_data nn_indices)) =
  [batch_count; nn_count; feature_count].
Proof.
  unfold _crosswise_diffs, amap2, expand_dims. cbn [shape].
  rewrite (gather_shape nn_data nn_indices _ _ _ _ nn_data_shape nn_indices_shape).
  rewrite (proj1 (gather_rank1_item data data_indices _ _ _ 0 0
                    data_shape data_indices_shape)).
  cbn [firstn skipn app bshape Nat.eqb].
  now destruct (batch_count =? 1)%nat, (feature_count =? 1)%nat.
Qed.

Lemma crosswise_diffs_item (b i k : nat) :
  (b < batch_count)%nat -> (i < nn_count)%nat -> (k < feature_count)%nat ->
  item (_crosswise_diffs (gather data data_indices) (gather nn_data nn_indices))
    [b; i; k] =
  item data [norm_index point_count (item data_indices [b]); k] -
  neighbour nn_data nn_indices nn_point_count b i k.
Proof.
  intros Hb Hi Hk. unfold _crosswise_diffs, amap2, expand_dims.
  cbn [item shape].
  rewrite (gather_shape nn_data nn_indices _ _ _ _ nn_data_shape nn_indices_shape).
  rewrite (proj1 (gather_rank1_item data data_indices _ _ _ 0 0
                    data_shape data_indices_shape)).
  cbn [firstn skipn app bindex Nat.eqb].
  rewrite !(bsel_in_range batch_count), !(bsel_in_range nn_count),
    !(bsel_in_range feature_count) by assumption.
  rewrite (gather_item nn_data nn_indices _ _ _ _ nn_data_shape nn_indices_shape).
  now rewrite (proj2 (gather_rank1_item data data_indices _ _ _ b k
                        data_shape data_indices_shape)).
Qed.

Lemma crosswise_F2_item (b i : nat) :
  (b < batch_count)%nat -> (i < nn_count)%nat ->
  item (_F2 (_crosswise_diffs (gather data data_indices)
               (gather nn_data nn_indices))) [b; i] =
  sum_n feature_count
    (fun k => (item data [norm_index point_count (item data_indices [b]); k] -
               neighbour nn_data nn_indices nn_point_count b i k) ^ 2).
Proof.
  intros Hb Hi. unfold _F2, sum_last, amap. cbn [item shape].
  rewrite crosswise_diffs_shape. cbn [last app].
  apply sum_n_ext. intros k Hk. now rewrite crosswise_diffs_item.
Qed.

Lemma crosswise_F2_shape :
  shape (_F2 (_crosswise_diffs (gather data data_indices)
                (gather nn_data nn_indices))) = [batch_count; nn_count].
Proof.
  unfold _F2, sum_last, amap. cbn [shape]. now rewrite crosswise_diffs_shape.
Qed.

End CrosswiseEntries.

Lemma norm_index_in_range (len : nat) (z : Z) :
  (0 <= z < Z.of_nat len)%Z -> norm_index len z = Z.to_nat z.
Proof.
  intros H. unfold norm_index.
  destruct (Z.ltb_spec z 0); [lia|]. f_equal. lia.
Qed.

Lemma norm_index_lt (len : nat) (z : Z) :
  (0 < len)%nat -> (norm_index len z < len)%nat.
Proof. intros H. unfold norm_index. destruct (z <? 0)%Z; lia. Qed.

(** X1. Under "l2" and "F2" the crosswise distances of [batch_count] query
    points to their [nn_count] neighbours are produced with shape
    (batch_count, nn_count); the "l2" tensor is the elementwise square root
    of the "F2" tensor, and all entries are non-negative. *)
Theorem crosswise_distances_shape_and_sign
    (data nn_data : ndarray R) (data_indices nn_indices : ndarray Z)
    (point_count nn_point_count feature_count batch_count nn_count : nat) :
  shape data = [point_count; feature_count] ->
  shape nn_data = [nn_point_count; feature_count] ->
  shape data_indices = [batch_count] ->
  shape nn_indices = [batch_count; nn_count] ->
  exists Dl D2,
    _crosswise_distances data nn_data data_indices nn_indices "l2" = Ok Dl /\
    _crosswise_distances data nn_data data_indices nn_indices "F2" = Ok D2 /\
    shape Dl = [batch_count; nn_count] /\
    shape D2 = [batch_count; nn_count] /\
    forall ix,
      item Dl ix = sqrt (item D2 ix) /\ 0 <= item Dl ix /\ 0 <= item D2 ix.
Proof.
  intros Hd Hn Hdi Hni. do 2 eexists.
  split; [reflexivity|]. split; [reflexivity|].
  pose proof (crosswise_F2_shape data nn_data data_indices nn_indices
                _ _ _ _ _ Hd Hn Hdi Hni) as Hs.
  split; [exact Hs|]. split; [exact Hs|].
  intros ix. split; [reflexivity|].
  split; [apply sqrt_pos | apply F2_nonneg].
Qed.

Lemma crosswise_distances_shape_and_sign_witness :
  exists Dl D2,
    _crosswise_distances sample_features sample_features (arange 3)
      sample_indices "l2" = Ok Dl /\
    _crosswise_distances sample_features sample_features (arange 3)
      sample_indices "F2" = Ok D2 /\
    shape Dl = [3%nat; 2%nat] /\
    shape D2 = [3%nat; 2%nat] /\
    forall ix,
      item Dl ix = sqrt (item D2 ix) /\ 0 <= item Dl ix /\ 0 <= item D2 ix.
Proof.
  exact (crosswise_distances_shape_and_sign sample_features sample_features
           (arange 3) sample_indices 3 3 2 3 2 eq_refl eq_refl eq_refl eq_refl).
Defined.

(** X2. When a query point is listed among its own neighbours (same feature
    matrix, same index), its crosswise distance to that neighbour is exactly
    0 under both metrics. *)
Theorem crosswise_self_distance_zero
    (data : ndarray R) (data_indices nn_indices : ndarray Z)
    (point_count feature_count batch_count nn_count b i : nat) :
  shape data = [point_count; feature_count] ->
  shape data_indices = [batch_count] ->
  shape nn_indices = [batch_count; nn_count] ->
  (b < batch_count)%nat -> (i < nn_count)%nat ->
  item nn_indices [b; i] = item data_indices [b] ->
  exists Dl D2,
    _crosswise_distances data data data_indices nn_indices "l2" = Ok Dl /\
    _crosswise_distances data data data_indices nn_indices "F2" = Ok D2 /\
    item Dl [b; i] = 0 /\ item D2 [b; i] = 0.
Proof.
  intros Hd Hdi Hni Hb Hi Heq. do 2 eexists.
  split; [reflexivity|]. split; [reflexivity|].
  assert (H2 : item (_F2 (_crosswise_diffs (gather data data_indices)
                            (gather data nn_indices))) [b; i] = 0).
  { rewrite (crosswise_F2_item data data data_indices nn_indices
               _ _ _ _ _ Hd Hd Hdi Hni) by assumption.
    rewrite (sum_n_ext _ _ (fun _ => 0)); [apply sum_n_zero|].
    intros k _. unfold neighbour. rewrite Heq. ring. }
  split; [|exact H2]. unfold _l2, amap. cbn [item]. rewrite H2. apply sqrt_0.
Qed.

Lemma crosswise_self_distance_zero_witness :
  exists Dl D2,
    _crosswise_distances sample_features sample_features (arange 3)
      sample_self_indices "l2" = Ok Dl /\
    _crosswise_distances sample_features sample_features (arange 3)
      sample_self_indices "F2" = Ok D2 /\
    item Dl [1%nat; 0%nat] = 0 /\ item D2 [1%nat; 0%nat] = 0.
Proof.
  assert (Hb : (1 < 3)%nat) by lia.
  assert (Hi : (0 < 2)%nat) by lia.
  exact (crosswise_self_distance_zero sample_features (arange 3)
           sample_self_indices 3 2 3 2 1 0 eq_refl eq_refl eq_refl Hb Hi eq_refl).
Defined.

(** X3. When neighbours [i] and [j] of batch element [b] have the same
    feature vector, their pairwise distance [D[b,i,j]] is exactly 0 under
    "l2" and under "F2"; and in any case the "F2" entry is 0 exactly when
    the "l2" entry is. *)
Theorem pairwise_same_features_zero_distance
    (data : ndarray R) (nn_indices : ndarray Z)
    (point_count feature_count batch_count nn_count b i j : nat) :
  shape data = [point_count; feature_count] ->
  shape nn_indices = [batch_count; nn_count] ->
  (b < batch_count)%nat -> (i < nn_count)%nat -> (j < nn_count)%nat ->
  exists Dl D2,
    _pairwise_distances data nn_indices "l2" = Ok Dl /\
    _pairwise_distances data nn_indices "F2" = Ok D2 /\
    ((forall k, (k < feature_count)%nat ->
        neighbour data nn_indices point_count b i k =
        neighbour data nn_indices point_count b j k) ->
     item Dl [b; i; j] = 0 /\ item D2 [b; i; j] = 0) /\
    (item D2 [b; i; j] = 0 <-> item Dl [b; i; j] = 0).
Proof.
  intros Hd Hn Hb Hi Hj. do 2 eexists.
  split; [reflexivity|]. split; [reflexivity|].
  pose proof (F2_item data nn_indices _ _ _ _ Hd Hn b i j Hb Hi Hj) as HF.
  assert (Hl : item (_l2 (_diffs (gather data nn_indices))) [b; i; j] = 0 <->
               item (_F2 (_diffs (gather data nn_indices))) [b; i; j] = 0).
  { unfold _l2, amap. cbn [item]. split.
    - intros H0. apply sqrt_eq_0; [apply F2_nonneg | exact H0].
    - intros H0. rewrite H0. apply sqrt_0. }
  split; [|now rewrite Hl].
  intros Heq.
  assert (H2 : item (_F2 (_diffs (gather data nn_indices))) [b; i; j] = 0).
  { rewrite HF. rewrite (sum_n_ext _ _ (fun _ => 0)); [apply sum_n_zero|].
    intros k Hk. rewrite (Heq k Hk). ring. }
  split; [now apply Hl | exact H2].
Qed.

Lemma pairwise_same_features_zero_distance_witness :
  exists Dl D2,
    _pairwise_distances sample_features sample_repeated_indices "l2" = Ok Dl /\
    _pairwise_distances sample_features sample_repeated_indices "F2" = Ok D2 /\
    (forall k, (k < 2)%nat ->
       neighbour sample_features sample_repeated_indices 3 0 0 k =
       neighbour sample_features sample_repeated_indices 3 0 1 k) /\
    item Dl [0%nat; 0%nat; 1%nat] = 0 /\ item D2 [0%nat; 0%nat; 1%nat] = 0.
Proof.
  assert (Hb : (0 < 1)%nat) by lia.
  assert (Hi : (0 < 2)%nat) by lia.
  assert (Hj : (1 < 2)%nat) by lia.
  destruct (pairwise_same_features_zero_distance sample_features
              sample_repeated_indices 3 2 1 2 0 0 1 eq_refl eq_refl Hb Hi Hj)
    as (Dl & D2 & Hl & H2 & Hzero & _).
  exists Dl, D2.
  split; [exact Hl|]. split; [exact H2|].
  split; [intros k _; reflexivity|].
  apply Hzero. intros k _. reflexivity.
Defined.

(* ================================================================== *)
(** ** Tensor builders *)

Lemma pairwise_supported (data : ndarray R) (nn_indices : ndarray Z) (metric : string) :
  metric = "l2"%string \/ metric = "F2"%string ->
  _pairwise_distances data nn_indices metric =
    Ok (if String.eqb metric "l2" then _l2 (_diffs (gather data nn_indices))
        else _F2 (_diffs (gather data nn_indices))).
Proof. intros [-> | ->]; reflexivity. Qed.

Lemma crosswise_supported (data nn_data : ndarray R)
    (data_indices nn_indices : ndarray Z) (metric : string) :
  metric = "l2"%string \/ metric = "F2"%string ->
  _crosswise_distances data nn_data data_indices nn_indices metric =
    Ok (if String.eqb metric "l2"
        then _l2 (_crosswise_diffs (gather data data_indices)
                    (gather nn_data nn_indices))
        else _F2 (_crosswise_diffs (gather data data_indices)
                    (gather nn_data nn_indices))).
Proof. intros [-> | ->]; reflexivity. Qed.

Lemma crosswise_unsupported (data nn_data : ndarray R)
    (data_indices nn_indices : ndarray Z) (metric : string) :
  metric <> "l2"%string -> metric <> "F2"%string ->
  _crosswise_distances data nn_data data_indices nn_indices metric =
    Raise (unsupported_metric metric).
Proof.
  intros H1 H2. unfold _crosswise_distances.
  destruct (String.eqb_spec metric "l2"); [contradiction|].
  destruct (String.eqb_spec metric "F2"); [contradiction|]. reflexivity.
Qed.

Lemma pairwise_unsupported (data : ndarray R) (nn_indices : ndarray Z)
    (metric : string) :
  metric <> "l2"%string -> metric <> "F2"%string ->
  _pairwise_distances data nn_indices metric = Raise (unsupported_metric metric).
Proof.
  intros H1 H2. unfold _pairwise_distances.
  destruct (String.eqb_spec metric "l2"); [contradiction|].
  destruct (String.eqb_spec metric "F2"); [contradiction|]. reflexivity.
Qed.

(** X5. In the fast-regress tensors, the first row and the first column of
    every pairwise distance matrix hold the crosswise distances of the
    training point to its own nearest neighbours:
    [pairwise_fast[t, 0, j+1] = pairwise_fast[t, j+1, 0] = crosswise[t, j]]
    for the crosswise distances of the training set to itself. *)
Theorem fast_pairwise_border_is_crosswise
    (metric : string) (batch_nn_indices : ndarray Z)
    (train_features train_targets : ndarray R)
    (train_count feature_count nn_count : nat) :
  shape train_features = [train_count; feature_count] ->
  shape batch_nn_indices = [train_count; nn_count] ->
  metric = "l2"%string \/ metric = "F2"%string ->
  exists pairwise_dists_fast batch_nn_targets_fast crosswise_dists,
    _make_fast_regress_tensors metric batch_nn_indices train_features train_targets
      = Ok (pairwise_dists_fast, batch_nn_targets_fast) /\
    _crosswise_distances train_features train_features (arange train_count)
      batch_nn_indices metric = Ok crosswise_dists /\
    forall t j, (t < train_count)%nat -> (j < nn_count - 1)%nat ->
      item pairwise_dists_fast [t; 0%nat; S j] = item crosswise_dists [t; j] /\
      item pairwise_dists_fast [t; S j; 0%nat] = item crosswise_dists [t; j].
Proof.
  intros Hf Hn Hm.
  destruct (fast_concat batch_nn_indices train_count nn_count Hn)
    as (U & HU & HsU & Hrows).
  unfold _make_fast_regress_tensors. rewrite Hf. cbn [unpack2 bind].
  rewrite HU. cbn [bind].
  rewrite (pairwise_supported _ _ _ Hm), (crosswise_supported _ _ _ _ _ Hm).
  cbn [bind]. do 3 eexists. split; [reflexivity|]. split; [reflexivity|].
  intros t j Ht Hj.
  assert (HF : forall p q, (p < S (nn_count - 1))%nat -> (q < S (nn_count - 1))%nat ->
            item (_F2 (_diffs (gather train_features U))) [t; p; q] =
            sum_n feature_count
              (fun k => (neighbour train_features U train_count t p k -
                         neighbour train_features U train_count t q k) ^ 2))
    by (intros p q Hp Hq; now apply (F2_item train_features U _ _ _ _ Hf HsU)).
  assert (HC : item (_F2 (_crosswise_diffs
                            (gather train_features (arange train_count))
                            (gather train_features batch_nn_indices))) [t; j] =
               sum_n feature_count
                 (fun k => (neighbour train_features U train_count t 0 k -
                            neighbour train_features U train_count t (S j) k) ^ 2)).
  { rewrite (crosswise_F2_item train_features train_features
               (arange train_count) batch_nn_indices
               train_count train_count feature_count train_count nn_count
               Hf Hf eq_refl Hn) by (assumption || lia).
    apply sum_n_ext. intros k _. unfold neighbour.
    destruct (Hrows t) as [H0 HS]. rewrite H0, HS. reflexivity. }
  assert (E1 : item (_F2 (_diffs (gather train_features U))) [t; 0%nat; S j] =
               item (_F2 (_crosswise_diffs
                            (gather train_features (arange train_count))
                            (gather train_features batch_nn_indices))) [t; j])
    by (rewrite HF, HC by lia; reflexivity).
  assert (E2 : item (_F2 (_diffs (gather train_features U))) [t; S j; 0%nat] =
               item (_F2 (_crosswise_diffs
                            (gather train_features (arange train_count))
                            (gather train_features batch_nn_indices))) [t; j]).
  { rewrite HF, HC by lia. apply sum_n_ext. intros k _. ring. }
  destruct (String.eqb metric "l2"); unfold _l2, amap; cbn [item];
    rewrite ?E1, ?E2; split; reflexivity.
Qed.

Lemma fast_pairwise_border_is_crosswise_witness :
  exists pairwise_dists_fast batch_nn_targets_fast crosswise_dists,
    _make_fast_regress_tensors "l2" sample_indices sample_features sample_targets
      = Ok (pairwise_dists_fast, batch_nn_targets_fast) /\
    _crosswise_distances sample_features sample_features (arange 3)
      sample_indices "l2" = Ok crosswise_dists /\
    forall t j, (t < 3)%nat -> (j < 2 - 1)%nat ->
      item pairwise_dists_fast [t; 0%nat; S j] = item crosswise_dists [t; j] /\
      item pairwise_dists_fast [t; S j; 0%nat] = item crosswise_dists [t; j].
Proof.
  exact (fast_pairwise_border_is_crosswise "l2" sample_indices sample_features
           sample_targets 3 2 2 eq_refl eq_refl (or_introl eq_refl)).
Defined.

(** X6. The fast-regress target tensor has shape
    (train_count, 1 + (nn_count - 1), response_count); its first neighbour
    slot holds the training point's own target, and slot [j+1] holds the
    target of its [j]-th nearest neighbour. *)
Theorem fast_targets_self_first
    (metric : string) (batch_nn_indices : ndarray Z)
    (train_features train_targets : ndarray R)
    (train_count feature_count nn_count response_count : nat) :
  shape train_features = [train_count; feature_count] ->
  shape train_targets = [train_count; response_count] ->
  shape batch_nn_indices = [train_count; nn_count] ->
  metric = "l2"%string \/ metric = "F2"%string ->
  exists pairwise_dists_fast batch_nn_targets_fast,
    _make_fast_regress_tensors metric batch_nn_indices train_features train_targets
      = Ok (pairwise_dists_fast, batch_nn_targets_fast) /\
    shape pairwise_dists_fast =
      [train_count; S (nn_count - 1); S (nn_count - 1)] /\
    shape batch_nn_targets_fast =
      [train_count; S (nn_count - 1); response_count] /\
    forall t k, (t < train_count)%nat ->
      item batch_nn_targets_fast [t; 0%nat; k] = item train_targets [t; k] /\
      forall j,
        item batch_nn_targets_fast [t; S j; k] =
        item train_targets
          [norm_index train_count (item batch_nn_indices [t; j]); k].
Proof.
  intros Hf Ht Hn Hm.
  destruct (fast_concat batch_nn_indices train_count nn_count Hn)
    as (U & HU & HsU & Hrows).
  unfold _make_fast_regress_tensors. rewrite Hf. cbn [unpack2 bind].
  rewrite HU. cbn [bind]. rewrite (pairwise_supported _ _ _ Hm). cbn [bind].
  do 2 eexists. split; [reflexivity|]. split; [|split].
  - pose proof (F2_shape train_features U _ _ _ _ Hf HsU) as HS.
    destruct (String.eqb metric "l2"); unfold _l2, amap; cbn [shape]; exact HS.
  - exact (gather_shape train_targets U _ _ _ _ Ht HsU).
  - intros t k Htc.
    rewrite !(gather_item train_targets U _ _ _ _ Ht HsU). unfold neighbour.
    destruct (Hrows t) as [H0 HS]. rewrite H0. split.
    + rewrite norm_index_in_range by lia. now rewrite Nat2Z.id.
    + intros j. rewrite (gather_item train_targets U _ _ _ _ Ht HsU).
      unfold neighbour. now rewrite HS.
Qed.

Lemma fast_targets_self_first_witness :
  exists pairwise_dists_fast batch_nn_targets_fast,
    _make_fast_regress_tensors "F2" sample_indices sample_features sample_targets
      = Ok (pairwise_dists_fast, batch_nn_targets_fast) /\
    shape pairwise_dists_fast = [3%nat; 2%nat; 2%nat] /\
    shape batch_nn_targets_fast = [3%nat; 2%nat; 1%nat] /\
    forall t k, (t < 3)%nat ->
      item batch_nn_targets_fast [t; 0%nat; k] = item sample_targets [t; k] /\
      forall j,
        item batch_nn_targets_fast [t; S j; k] =
        item sample_targets [norm_index 3 (item sample_indices [t; j]); k].
Proof.
  exact (fast_targets_self_first "F2" sample_indices sample_features
           sample_targets 3 2 2 1 eq_refl eq_refl eq_refl (or_intror eq_refl)).
Defined.

(** X7. The fast index transform keeps neighbour indices valid: if every
    entry of the input lies in [0, train_count), so does every entry of the
    output. *)
Theorem fast_nn_update_keeps_indices_in_range
    (nn_indices : ndarray Z) (train_count nn_count : nat) :
  shape nn_indices = [train_count; nn_count] ->
  (forall t j, (t < train_count)%nat -> (j < nn_count)%nat ->
     (0 <= item nn_indices [t; j] < Z.of_nat train_count)%Z) ->
  exists U,
    _fast_nn_update nn_indices = Ok U /\
    forall t j, (t < nth 0 (shape U) 0)%nat -> (j < nth 1 (shape U) 0)%nat ->
      (0 <= item U [t; j] < Z.of_nat train_count)%Z.
Proof.
  intros Hs Hvalid.
  destruct (fast_concat nn_indices train_count nn_count Hs)
    as (U & HU & HsU & Hrows).
  exists U. unfold _fast_nn_update. rewrite Hs. cbn [unpack2 bind].
  split; [exact HU|]. rewrite HsU. cbn [nth]. intros t j Ht Hj.
  destruct (Hrows t) as [H0 HS]. destruct j as [|j].
  - rewrite H0. lia.
  - rewrite HS. apply Hvalid; lia.
Qed.

Lemma fast_nn_update_keeps_indices_in_range_witness :
  exists U,
    _fast_nn_update sample_indices = Ok U /\
    forall t j, (t < nth 0 (shape U) 0)%nat -> (j < nth 1 (shape U) 0)%nat ->
      (0 <= item U [t; j] < Z.of_nat 3)%Z.
Proof.
  refine (fast_nn_update_keeps_indices_in_range sample_indices 3 2 eq_refl _).
  intros t j Ht Hj.
  destruct t as [|[|[|t]]]; [| | |lia];
    (destruct j as [|[|j]]; [| |lia]); cbn; lia.
Defined.

(** X8. An unsupported metric makes the regression and training tensor
    builders raise the unsupported-metric [ValueError], whatever the other
    arguments are (also when [test_features] is [None]). *)
Theorem tensor_builders_reject_unsupported_metric
    (metric : string) (batch_indices batch_nn_indices : ndarray Z)
    (test_features : option (ndarray R)) (train_features train_targets : ndarray R) :
  metric <> "l2"%string -> metric <> "F2"%string ->
  _make_regress_tensors metric batch_indices batch_nn_indices test_features
    train_features train_targets =
    Raise (ValueError ("Metric " ++ metric ++ " is not supported!")%string) /\
  _make_train_tensors metric batch_indices batch_nn_indices
    train_features train_targets =
    Raise (ValueError ("Metric " ++ metric ++ " is not supported!")%string).
Proof.
  intros H1 H2. unfold _make_train_tensors, _make_regress_tensors.
  rewrite !(crosswise_unsupported _ _ _ _ _ H1 H2). split; reflexivity.
Qed.

Lemma tensor_builders_reject_unsupported_metric_witness :
  _make_regress_tensors "cosine" (arange 3) sample_indices None
    sample_features sample_targets =
    Raise (ValueError "Metric cosine is not supported!") /\
  _make_train_tensors "cosine" (arange 3) sample_indices
    sample_features sample_targets =
    Raise (ValueError "Metric cosine is not supported!").
Proof.
  apply (tensor_builders_reject_unsupported_metric "cosine"); discriminate.
Defined.

(** X9. The fast-regress tensor builder takes the number of training points
    from the feature matrix.  When the neighbour-index tensor has a
    different number of rows, the concatenation fails and a [TypeError] is
    raised for every metric, supported or not; when the row counts agree, an
    unsupported metric raises the unsupported-metric [ValueError]. *)
Theorem fast_regress_tensors_errors
    (metric : string) (batch_nn_indices : ndarray Z)
    (train_features train_targets : ndarray R)
    (num_train feature_count row_count nn_count : nat) :
  shape train_features = [num_train; feature_count] ->
  shape batch_nn_indices = [row_count; nn_count] ->
  (num_train <> row_count ->
   exists msg,
     _make_fast_regress_tensors metric batch_nn_indices train_features
       train_targets = Raise (TypeError msg)) /\
  (num_train = row_count ->
   metric <> "l2"%string -> metric <> "F2"%string ->
   _make_fast_regress_tensors metric batch_nn_indices train_features
     train_targets =
   Raise (ValueError ("Metric " ++ metric ++ " is not supported!")%string)).
Proof.
  intros Hf Hn. unfold _make_fast_regress_tensors. rewrite Hf.
  cbn [unpack2 bind]. split.
  - intros Hne. unfold concatenate1, expand_dims, drop_last_col, arange, dim.
    cbn [shape firstn skipn app nth]. rewrite Hn. cbn [nth].
    apply Nat.eqb_neq in Hne. rewrite Hne. cbn [bind]. eexists. reflexivity.
  - intros -> H1 H2.
    destruct (fast_concat batch_nn_indices row_count nn_count Hn)
      as (U & HU & _). rewrite HU. cbn [bind].
    now rewrite (pairwise_unsupported _ _ _ H1 H2).
Qed.

Lemma fast_regress_tensors_errors_witness :
  (exists msg,
     _make_fast_regress_tensors "l2" empty_indices sample_features sample_targets
       = Raise (TypeError msg)) /\
  _make_fast_regress_tensors "cosine" sample_indices sample_features sample_targets
    = Raise (ValueError "Metric cosine is not supported!").
Proof.
  split.
  - assert (Hne : 3%nat <> 1%nat) by discriminate.
    exact (proj1 (fast_regress_tensors_errors "l2" empty_indices sample_features
                    sample_targets 3 2 1 0 eq_refl eq_refl) Hne).
  - assert (H1 : "cosine"%string <> "l2"%string) by discriminate.
    assert (H2 : "cosine"%string <> "F2"%string) by discriminate.
    exact (proj2 (fast_regress_tensors_errors "cosine" sample_indices
                    sample_features sample_targets 3 2 3 2 eq_refl eq_refl)
             eq_refl H1 H2).
Defined.

(** X10. For a supported metric the training tensor builder returns four
    tensors of shapes (batch_count, nn_count),
    (batch_count, nn_count, nn_count), (batch_count, response_count) and
    (batch_count, nn_count, response_count); the first, second and fourth
    are those of the regression builder called with the training features
    as test features. *)
Theorem make_train_tensors_shapes
    (metric : string) (batch_indices batch_nn_indices : ndarray Z)
    (train_features train_targets : ndarray R)
    (train_count feature_count response_count batch_count nn_count : nat) :
  shape train_features = [train_count; feature_count] ->
  shape train_targets = [train_count; response_count] ->
  shape batch_indices = [batch_count] ->
  shape batch_nn_indices = [batch_count; nn_count] ->
  metric = "l2"%string \/ metric = "F2"%string ->
  exists crosswise_dists pairwise_dists batch_targets batch_nn_targets,
    _make_train_tensors metric batch_indices batch_nn_indices
      train_features train_targets =
      Ok (crosswise_dists, pairwise_dists, batch_targets, batch_nn_targets) /\
    _make_regress_tensors metric batch_indices batch_nn_indices None
      train_features train_targets =
      Ok (crosswise_dists, pairwise_dists, batch_nn_targets) /\
    shape crosswise_dists = [batch_count; nn_count] /\
    shape pairwise_dists = [batch_count; nn_count; nn_count] /\
    shape batch_targets = [batch_count; response_count] /\
    shape batch_nn_targets = [batch_count; nn_count; response_count].
Proof.
  intros Hf Ht Hb Hn Hm. unfold _make_train_tensors, _make_regress_tensors.
  rewrite (crosswise_supported _ _ _ _ _ Hm), (pairwise_supported _ _ _ Hm).
  cbn [bind]. do 4 eexists. split; [reflexivity|]. split; [reflexivity|].
  pose proof (crosswise_F2_shape train_features train_features batch_indices
                batch_nn_indices _ _ _ _ _ Hf Hf Hb Hn) as Hc.
  pose proof (F2_shape train_features batch_nn_indices _ _ _ _ Hf Hn) as Hp.
  split; [|split; [|split]].
  - destruct (String.eqb metric "l2"); unfold _l2, amap; cbn [shape]; exact Hc.
  - destruct (String.eqb metric "l2"); unfold _l2, amap; cbn [shape]; exact Hp.
  - exact (proj1 (gather_rank1_item train_targets batch_indices _ _ _ 0 0 Ht Hb)).
  - exact (gather_shape train_targets batch_nn_indices _ _ _ _ Ht Hn).
Qed.

Lemma make_train_tensors_shapes_witness :
  exists crosswise_dists pairwise_dists batch_targets batch_nn_targets,
    _make_train_tensors "F2" (arange 3) sample_indices
      sample_features sample_targets =
      Ok (crosswise_dists, pairwise_dists, batch_targets, batch_nn_targets) /\
    _make_regress_tensors "F2" (arange 3) sample_indices None
      sample_features sample_targets =
      Ok (crosswise_dists, pairwise_dists, batch_nn_targets) /\
    shape crosswise_dists = [3%nat; 2%nat] /\
    shape pairwise_dists = [3%nat; 2%nat; 2%nat] /\
    shape batch_targets = [3%nat; 1%nat] /\
    shape batch_nn_targets = [3%nat; 2%nat; 1%nat].
Proof.
  exact (make_train_tensors_shapes "F2" (arange 3) sample_indices
           sample_features sample_targets 3 2 1 3 2
           eq_refl eq_refl eq_refl eq_refl (or_intror eq_refl)).
Defined.

(* ================================================================== *)
(** ** Fixed-smoothness kernels *)

Lemma exp_le_mono (x y : R) : x <= y -> exp x <= exp y.
Proof.
  intros [H | ->]; [left; now apply exp_increasing | right; reflexivity].
Qed.

Lemma exp_neg_le_1 (x : R) : 0 <= x -> exp (- x) <= 1.
Proof. intros H. rewrite <- exp_0. apply exp_le_mono. lra. Qed.

(** Entries of the fixed-smoothness kernels. *)
Lemma matern_15_item (dists : ndarray R) (ix : list nat) :
  in_bounds (shape dists) ix ->
  item (_matern_15_fn dists) ix =
  (1 + item dists ix * sqrt 3) * exp (- (item dists ix * sqrt 3)).
Proof.
  intros Hin. unfold _matern_15_fn, amap2, amap. cbn [item shape].
  now rewrite (bindex_in_bounds _ _ Hin).
Qed.

Lemma matern_25_item (dists : ndarray R) (ix : list nat) :
  in_bounds (shape dists) ix ->
  item (_matern_25_fn dists) ix =
  (1 + item dists ix * sqrt 5 + (item dists ix * sqrt 5) ^ 2 / 3) *
  exp (- (item dists ix * sqrt 5)).
Proof.
  intros Hin. unfold _matern_25_fn, amap2, amap. cbn [item shape].
  now rewrite (bindex_in_bounds _ _ Hin).
Qed.

(** X12. Each fixed-smoothness kernel (RBF, Matern 1/2, 3/2, 5/2 and
    infinity) keeps the shape of its input and maps a zero entry to
    exactly 1.  The kernels that are a single exponential (RBF, Matern 1/2
    and infinity) map a non-negative entry to a value between 0 and 1. *)
Theorem fixed_kernels_unit_at_zero (dists : ndarray R) (ix : list nat) :
  in_bounds (shape dists) ix ->
  Forall (fun kernel : ndarray R -> ndarray R =>
            shape (kernel dists) = shape dists /\
            (item dists ix = 0 -> item (kernel dists) ix = 1))
    [_rbf_fn; _matern_05_fn; _matern_15_fn; _matern_25_fn; _matern_inf_fn] /\
  (0 <= item dists ix ->
   Forall (fun kernel : ndarray R -> ndarray R =>
             0 <= item (kernel dists) ix <= 1)
     [_rbf_fn; _matern_05_fn; _matern_inf_fn]).
Proof.
  intros Hin. set (d := item dists ix) in *. split.
  - repeat apply Forall_cons; [| | | | |apply Forall_nil].
    + split; [reflexivity|]. rewrite rbf_item. fold d.
      intros ->. replace (- 0 / 2) with 0 by lra. apply exp_0.
    + split; [reflexivity|]. unfold _matern_05_fn, amap. cbn [item]. fold d.
      intros ->. rewrite Ropp_0. apply exp_0.
    + split; [unfold _matern_15_fn, amap2, amap; cbn [shape]; apply bshape_same|].
      rewrite (matern_15_item dists ix Hin). fold d.
      intros ->. rewrite Rmult_0_l, Ropp_0, exp_0. lra.
    + split; [unfold _matern_25_fn, amap2, amap; cbn [shape]; apply bshape_same|].
      rewrite (matern_25_item dists ix Hin). fold d.
      intros ->. rewrite Rmult_0_l, Ropp_0, exp_0. lra.
    + split; [reflexivity|]. unfold _matern_inf_fn, amap. cbn [item]. fold d.
      intros ->. replace (- 0 ^ 2 / 2) with 0 by lra. apply exp_0.
  - intros Hd. repeat apply Forall_cons; [| | |apply Forall_nil].
    + rewrite rbf_item. fold d. split; [left; apply exp_pos|].
      replace (- d / 2) with (- (d / 2)) by lra. apply exp_neg_le_1. lra.
    + unfold _matern_05_fn, amap. cbn [item]. fold d.
      split; [left; apply exp_pos | now apply exp_neg_le_1].
    + unfold _matern_inf_fn, amap. cbn [item]. fold d.
      split; [left; apply exp_pos|].
      replace (- d ^ 2 / 2) with (- (d ^ 2 / 2)) by lra.
      apply exp_neg_le_1. nra.
Qed.

Lemma fixed_kernels_unit_at_zero_witness :
  in_bounds (shape sample_dists2) [0%nat; 0%nat] /\
  item sample_dists2 [0%nat; 0%nat] = 0 /\
  Forall (fun kernel : ndarray R -> ndarray R =>
            shape (kernel sample_dists2) = shape sample_dists2 /\
            item (kernel sample_dists2) [0%nat; 0%nat] = 1)
    [_rbf_fn; _matern_05_fn; _matern_15_fn; _matern_25_fn; _matern_inf_fn] /\
  Forall (fun kernel : ndarray R -> ndarray R =>
            0 <= item (kernel sample_dists2) [0%nat; 0%nat] <= 1)
    [_rbf_fn; _matern_05_fn; _matern_inf_fn].
Proof.
  assert (Hin : in_bounds (shape sample_dists2) [0%nat; 0%nat])
    by (cbn; repeat split; lia).
  assert (Hz : item sample_dists2 [0%nat; 0%nat] = 0) by reflexivity.
  assert (Hd : 0 <= item sample_dists2 [0%nat; 0%nat]) by (rewrite Hz; lra).
  destruct (fixed_kernels_unit_at_zero sample_dists2 [0%nat; 0%nat] Hin)
    as [Hone Hrange].
  split; [exact Hin|]. split; [exact Hz|]. split; [|exact (Hrange Hd)].
  apply (Forall_impl _ (fun kernel H => conj (proj1 H) (proj2 H Hz)) Hone).
Defined.

(** X15. Every kernel turns the pairwise distances of a neighbour-index
    tensor into covariance matrices that are symmetric with unit diagonal:
    RBF on the "F2" distances, and Matern 1/2, 3/2, 5/2, infinity and the
    general Matern kernel (any [nu]) on the "l2" distances. *)
Theorem kernels_of_pairwise_symmetric_unit_diagonal
    (gammaln : R -> R) (bessel_kve : R -> R -> R) (nu : R)
    (data : ndarray R) (nn_indices : ndarray Z)
    (point_count feature_count batch_count nn_count : nat) :
  shape data = [point_count; feature_count] ->
  shape nn_indices = [batch_count; nn_count] ->
  exists Dl D2,
    _pairwise_distances data nn_indices "l2" = Ok Dl /\
    _pairwise_distances data nn_indices "F2" = Ok D2 /\
    Forall (fun K : ndarray R =>
              shape K = [batch_count; nn_count; nn_count] /\
              forall b, (b < batch_count)%nat ->
                symmetric nn_count (slice K b) /\
                unit_diagonal nn_count (slice K b))
      [_rbf_fn D2; _matern_05_fn Dl; _matern_15_fn Dl; _matern_25_fn Dl;
       _matern_inf_fn Dl; _matern_gen_fn gammaln bessel_kve Dl nu].
Proof.
  intros Hd Hn. do 2 eexists. split; [reflexivity|]. split; [reflexivity|].
  set (F := _F2 (_diffs (gather data nn_indices))).
  set (L := _l2 (_diffs (gather data nn_indices))).
  pose proof (F2_shape data nn_indices _ _ _ _ Hd Hn) as HsF. fold F in HsF.
  assert (HsL : shape L = [batch_count; nn_count; nn_count]) by exact HsF.
  assert (HF : forall b i j, (b < batch_count)%nat -> (i < nn_count)%nat ->
            (j < nn_count)%nat ->
            item F [b; i; j] = item F [b; j; i] /\ item F [b; i; i] = 0).
  { intros b i j Hb Hi Hj. unfold F.
    rewrite !(F2_item data nn_indices _ _ _ _ Hd Hn) by assumption. split.
    - apply sum_n_ext. intros k _. ring.
    - rewrite (sum_n_ext _ _ (fun _ => 0)); [apply sum_n_zero | intros; ring]. }
  assert (HL : forall b i j, (b < batch_count)%nat -> (i < nn_count)%nat ->
            (j < nn_count)%nat ->
            item L [b; i; j] = item L [b; j; i] /\ item L [b; i; i] = 0).
  { intros b i j Hb Hi Hj. unfold L, _l2, amap. cbn [item]. fold F.
    destruct (HF b i j Hb Hi Hj) as [-> ->]. split; [reflexivity | apply sqrt_0]. }
  assert (Hin : forall b i j, (b < batch_count)%nat -> (i < nn_count)%nat ->
            (j < nn_count)%nat -> in_bounds (shape L) [b; i; j])
    by (intros; rewrite HsL; cbn; tauto).
  repeat apply Forall_cons; [| | | | | |apply Forall_nil].
  - split; [exact HsF|]. intros b Hb. split.
    + intros i j Hi Hj. unfold slice. rewrite !rbf_item.
      now rewrite (proj1 (HF b i j Hb Hi Hj)).
    + intros i Hi. unfold slice. rewrite rbf_item, (proj2 (HF b i i Hb Hi Hi)).
      replace (- 0 / 2) with 0 by lra. apply exp_0.
  - split; [exact HsL|]. intros b Hb. split.
    + intros i j Hi Hj. unfold slice, _matern_05_fn, amap. cbn [item].
      now rewrite (proj1 (HL b i j Hb Hi Hj)).
    + intros i Hi. unfold slice, _matern_05_fn, amap. cbn [item].
      rewrite (proj2 (HL b i i Hb Hi Hi)), Ropp_0. apply exp_0.
  - split; [unfold _matern_15_fn, amap2, amap; cbn [shape];
            now rewrite bshape_same|].
    intros b Hb. split.
    + intros i j Hi Hj. unfold slice. rewrite !matern_15_item by now apply Hin.
      now rewrite (proj1 (HL b i j Hb Hi Hj)).
    + intros i Hi. unfold slice. rewrite matern_15_item by now apply Hin.
      rewrite (proj2 (HL b i i Hb Hi Hi)), Rmult_0_l, Ropp_0, exp_0. lra.
  - split; [unfold _matern_25_fn, amap2, amap; cbn [shape];
            now rewrite bshape_same|].
    intros b Hb. split.
    + intros i j Hi Hj. unfold slice. rewrite !matern_25_item by now apply Hin.
      now rewrite (proj1 (HL b i j Hb Hi Hj)).
    + intros i Hi. unfold slice. rewrite matern_25_item by now apply Hin.
      rewrite (proj2 (HL b i i Hb Hi Hi)), Rmult_0_l, Ropp_0, exp_0. lra.
  - split; [exact HsL|]. intros b Hb. split.
    + intros i j Hi Hj. unfold slice, _matern_inf_fn, amap. cbn [item].
      now rewrite (proj1 (HL b i j Hb Hi Hj)).
    + intros i Hi. unfold slice, _matern_inf_fn, amap. cbn [item].
      rewrite (proj2 (HL b i i Hb Hi Hi)).
      replace (- 0 ^ 2 / 2) with 0 by lra. apply exp_0.
  - split; [now rewrite matern_gen_shape|]. intros b Hb. split.
    + intros i j Hi Hj. unfold slice.
      rewrite (proj2 (matern_gen_rank3_item gammaln bessel_kve L nu _ _ b i j
                        HsL Hb Hi Hj)).
      rewrite (proj2 (matern_gen_rank3_item gammaln bessel_kve L nu _ _ b j i
                        HsL Hb Hj Hi)).
      rewrite (Nat.eqb_sym j i). destruct (i =? j)%nat; [reflexivity|].
      cbv zeta. now rewrite (proj1 (HL b i j Hb Hi Hj)).
    + intros i Hi. unfold slice.
      rewrite (proj2 (matern_gen_rank3_item gammaln bessel_kve L nu _ _ b i i
                        HsL Hb Hi Hi)).
      now rewrite Nat.eqb_refl.
Qed.

Lemma kernels_of_pairwise_symmetric_unit_diagonal_witness :
  exists Dl D2,
    _pairwise_distances sample_features sample_indices "l2" = Ok Dl /\
    _pairwise_distances sample_features sample_indices "F2" = Ok D2 /\
    Forall (fun K : ndarray R =>
              shape K = [3%nat; 2%nat; 2%nat] /\
              forall b, (b < 3)%nat ->
                symmetric 2 (slice K b) /\ unit_diagonal 2 (slice K b))
      [_rbf_fn D2; _matern_05_fn Dl; _matern_15_fn Dl; _matern_25_fn Dl;
       _matern_inf_fn Dl; _matern_gen_fn (fun _ => 0) (fun _ _ => 1) Dl 1].
Proof.
  exact (kernels_of_pairwise_symmetric_unit_diagonal (fun _ => 0) (fun _ _ => 1) 1
           sample_features sample_indices 3 2 3 2 eq_refl eq_refl).
Defined.

(** X16. On a rank-2 distance tensor the general Matern kernel writes
    [const_val * t^nu * bessel_kve(nu, t) / exp(|t|)] with
    [t = sqrt(2 nu) * d] into every entry, diagonal included.  On a rank-1
    tensor [const_val] is never written: the leading factor is the distance
    [d] itself, so the same distance gives
    [const_val * out_rank1 = d * out_rank2]. *)
Theorem matern_gen_rank1_rank2_entries
    (gammaln : R -> R) (bessel_kve : R -> R -> R) (nu : R)
    (dists1 dists2 : ndarray R) (ix1 ix2 : list nat) :
  ndim dists1 = 1%nat -> ndim dists2 = 2%nat ->
  in_bounds (shape dists1) ix1 -> in_bounds (shape dists2) ix2 ->
  let d1 := item dists1 ix1 in
  let d2 := item dists2 ix2 in
  let profile d :=
    jnp_power (sqrt (2 * nu) * d) nu *
    (bessel_kve nu (sqrt (2 * nu) * d) / exp (Rabs (sqrt (2 * nu) * d))) in
  item (_matern_gen_fn gammaln bessel_kve dists2 nu) ix2 =
    matern_gen_const_val gammaln nu * profile d2 /\
  item (_matern_gen_fn gammaln bessel_kve dists1 nu) ix1 = d1 * profile d1 /\
  (d1 = d2 ->
   matern_gen_const_val gammaln nu *
     item (_matern_gen_fn gammaln bessel_kve dists1 nu) ix1 =
   d1 * item (_matern_gen_fn gammaln bessel_kve dists2 nu) ix2).
Proof.
  intros Hr1 Hr2 Hin1 Hin2 d1 d2 profile.
  pose proof (proj2 (matern_gen_low_rank_item gammaln bessel_kve dists1 nu ix1
                       (or_introl Hr1) Hin1)) as H1.
  pose proof (proj2 (matern_gen_low_rank_item gammaln bessel_kve dists2 nu ix2
                       (or_intror Hr2) Hin2)) as H2.
  rewrite Hr1 in H1. rewrite Hr2 in H2. cbn [Nat.eqb] in H1, H2.
  assert (E2 : item (_matern_gen_fn gammaln bessel_kve dists2 nu) ix2 =
               matern_gen_const_val gammaln nu * profile d2)
    by (rewrite H2; unfold profile, d2; ring).
  assert (E1 : item (_matern_gen_fn gammaln bessel_kve dists1 nu) ix1 =
               d1 * profile d1)
    by (rewrite H1; unfold profile, d1; ring).
  split; [exact E2|]. split; [exact E1|].
  intros Hd. rewrite E1, E2, Hd. ring.
Qed.

Lemma matern_gen_rank1_rank2_entries_witness :
  matern_gen_const_val (fun _ => 0) 1 *
    item (_matern_gen_fn (fun _ => 0) (fun _ _ => 1) sample_sq 1) [0%nat] =
  item sample_sq [0%nat] *
    item (_matern_gen_fn (fun _ => 0) (fun _ _ => 1) sample_dists2 1)
      [0%nat; 1%nat].
Proof.
  assert (Hin1 : in_bounds (shape sample_sq) [0%nat]) by (cbn; repeat split; lia).
  assert (Hin2 : in_bounds (shape sample_dists2) [0%nat; 1%nat])
    by (cbn; repeat split; lia).
  exact (proj2 (proj2 (matern_gen_rank1_rank2_entries (fun _ => 0) (fun _ _ => 1) 1
                         sample_sq sample_dists2 [0%nat] [0%nat; 1%nat]
                         eq_refl eq_refl Hin1 Hin2)) eq_refl).
Defined.

(* ================================================================== *)
(** ** Further properties of the batched solver *)

Lemma in_bounds3 (b n r : nat) (ix : list nat) :
  in_bounds [b; n; r] ix ->
  exists i p k, ix = [i; p; k] /\ (i < b)%nat /\ (p < n)%nat /\ (k < r)%nat.
Proof.
  intros Hin. destruct ix as [|i [|p [|k [|? ?]]]]; cbn in Hin; try tauto.
  exists i, p, k. tauto.
Qed.

Lemma in_bounds2 (b r : nat) (ix : list nat) :
  in_bounds [b; r] ix ->
  exists i k, ix = [i; k] /\ (i < b)%nat /\ (k < r)%nat.
Proof.
  intros Hin. destruct ix as [|i [|k [|? ?]]]; cbn in Hin; try tauto.
  exists i, k. tauto.
Qed.

Section SolverProperties.

Variable linalg_solve : ndarray R -> ndarray R -> ndarray R.
Hypothesis linalg_solve_ok : solver_spec linalg_solve.

(** The prediction at a non-singular batch element, through the inverse. *)
Lemma compute_solve_via_inverse (K Kcross T out Kinv : ndarray R) (b n r i k : nat) :
  shape K = [b; n; n] -> shape Kcross = [b; n] -> shape T = [b; n; r] ->
  _muygps_compute_solve linalg_solve K Kcross T = Ok out ->
  (i < b)%nat -> (k < r)%nat -> inverse_at n K Kinv i ->
  item out [i; k] =
  sum_n n (fun p => item Kcross [i; p] *
             sum_n n (fun q => item Kinv [i; p; q] * item T [i; q; k])).
Proof.
  intros HK HKc HT Hout Hi Hk Hinv.
  destruct (compute_solve_entries linalg_solve linalg_solve_ok K Kcross T b n r
              HK HKc HT) as (out' & Ho & _ & Hio).
  rewrite Hout in Ho. injection Ho as <-.
  destruct (linalg_solve_ok K T _ _ _ HK HT) as [_ Hsol].
  rewrite Hio by assumption. apply sum_n_ext. intros p Hp. f_equal.
  apply (solution_is_inverse_times_rhs n r K Kinv T); try assumption.
  apply Hsol; [exact Hi | now exists Kinv].
Qed.

(** X17. Interpolation.  If, at a non-singular batch element [b], the
    cross-covariance [Kcross[b]] is row [p] of [K[b]] (the query point
    coincides with neighbour [p]), the predicted mean is the target of that
    neighbour, [targets[b, p, :]], and the diagonal variance is
    [1 - K[b, p, p]], that is 0 for a unit diagonal. *)
Theorem solve_interpolates_at_neighbour
    (K Kcross targets : ndarray R)
    (batch_count nn_count response_count b p : nat) :
  shape K = [batch_count; nn_count; nn_count] ->
  shape Kcross = [batch_count; nn_count] ->
  shape targets = [batch_count; nn_count; response_count] ->
  (b < batch_count)%nat -> (p < nn_count)%nat ->
  nonsingular_at nn_count K b ->
  (forall q, (q < nn_count)%nat -> item Kcross [b; q] = item K [b; p; q]) ->
  exists out V,
    _muygps_compute_solve linalg_solve K Kcross targets = Ok out /\
    _muygps_compute_diagonal_variance linalg_solve K Kcross = Ok V /\
    (forall k, (k < response_count)%nat ->
       item out [b; k] = item targets [b; p; k]) /\
    item V [b] = 1 - item K [b; p; p] /\
    (item K [b; p; p] = 1 -> item V [b] = 0).
Proof.
  intros HK HKc HT Hb Hp Hns Hrow.
  destruct (compute_solve_entries linalg_solve linalg_solve_ok K Kcross targets
              _ _ _ HK HKc HT) as (out & Ho & _ & Hio).
  destruct (diagonal_variance_entries linalg_solve linalg_solve_ok K Kcross
              _ _ HK HKc) as (V & HV & _ & HiV).
  exists out, V. split; [exact Ho|]. split; [exact HV|].
  destruct (linalg_solve_ok K targets _ _ _ HK HT) as [_ Hsol].
  set (Kc3 := reshape [batch_count; nn_count; 1%nat] Kcross) in *.
  destruct (linalg_solve_ok K Kc3 batch_count nn_count 1%nat HK eq_refl)
    as [_ Hsol1].
  assert (HVb : item V [b] = 1 - item K [b; p; p]).
  { rewrite (HiV b Hb). f_equal.
    rewrite (sum_n_ext _ _ (fun q => item K [b; p; q] *
                              item (linalg_solve K Kc3) [b; q; 0%nat]))
      by (intros q Hq; now rewrite Hrow).
    rewrite (Hsol1 b Hb Hns p 0%nat Hp) by lia.
    unfold Kc3. rewrite (reshape_insert_last Kcross batch_count nn_count)
      by assumption.
    now apply Hrow. }
  split; [|split].
  - intros k Hk. rewrite (Hio b k Hb Hk).
    rewrite (sum_n_ext _ _ (fun q => item K [b; p; q] *
                              item (linalg_solve K targets) [b; q; k]))
      by (intros q Hq; now rewrite Hrow).
    now apply (Hsol b Hb Hns).
  - exact HVb.
  - intros H1. rewrite HVb, H1. lra.
Qed.

(** X18. The predicted mean is linear in the neighbour targets: at a
    non-singular batch element the prediction for [T1 + T2] is the sum of
    the predictions for [T1] and [T2], and the prediction for [c * T1] is
    [c] times the prediction for [T1]. *)
Theorem solve_linear_in_targets
    (K Kcross T1 T2 : ndarray R) (c : R)
    (batch_count nn_count response_count b k : nat) :
  shape K = [batch_count; nn_count; nn_count] ->
  shape Kcross = [batch_count; nn_count] ->
  shape T1 = [batch_count; nn_count; response_count] ->
  shape T2 = [batch_count; nn_count; response_count] ->
  (b < batch_count)%nat -> (k < response_count)%nat ->
  nonsingular_at nn_count K b ->
  exists out1 out2 out_sum out_scaled,
    _muygps_compute_solve linalg_solve K Kcross T1 = Ok out1 /\
    _muygps_compute_solve linalg_solve K Kcross T2 = Ok out2 /\
    _muygps_compute_solve linalg_solve K Kcross (amap2 Rplus T1 T2) = Ok out_sum /\
    _muygps_compute_solve linalg_solve K Kcross (amap (Rmult c) T1)
      = Ok out_scaled /\
    item out_sum [b; k] = item out1 [b; k] + item out2 [b; k] /\
    item out_scaled [b; k] = c * item out1 [b; k].
Proof.
  intros HK HKc HT1 HT2 Hb Hk [Kinv Hinv].
  assert (HTs : shape (amap2 Rplus T1 T2) = [batch_count; nn_count; response_count])
    by (unfold amap2; cbn [shape]; now rewrite HT1, HT2, bshape_same).
  assert (HTc : shape (amap (Rmult c) T1) = [batch_count; nn_count; response_count])
    by exact HT1.
  destruct (compute_solve_entries linalg_solve linalg_solve_ok K Kcross T1
              _ _ _ HK HKc HT1) as (out1 & Ho1 & _ & _).
  destruct (compute_solve_entries linalg_solve linalg_solve_ok K Kcross T2
              _ _ _ HK HKc HT2) as (out2 & Ho2 & _ & _).
  destruct (compute_solve_entries linalg_solve linalg_solve_ok K Kcross _
              _ _ _ HK HKc HTs) as (outs & Hos & _ & _).
  destruct (compute_solve_entries linalg_solve linalg_solve_ok K Kcross _
              _ _ _ HK HKc HTc) as (outc & Hoc & _ & _).
  exists out1, out2, outs, outc.
  split; [exact Ho1|]. split; [exact Ho2|]. split; [exact Hos|].
  split; [exact Hoc|].
  rewrite (compute_solve_via_inverse K Kcross T1 out1 Kinv _ _ _ b k
             HK HKc HT1 Ho1 Hb Hk Hinv).
  rewrite (compute_solve_via_inverse K Kcross T2 out2 Kinv _ _ _ b k
             HK HKc HT2 Ho2 Hb Hk Hinv).
  rewrite (compute_solve_via_inverse K Kcross _ outs Kinv _ _ _ b k
             HK HKc HTs Hos Hb Hk Hinv).
  rewrite (compute_solve_via_inverse K Kcross _ outc Kinv _ _ _ b k
             HK HKc HTc Hoc Hb Hk Hinv).
  split.
  - rewrite <- sum_n_plus. apply sum_n_ext. intros p Hp.
    rewrite <- Rmult_plus_distr_l. f_equal.
    rewrite <- sum_n_plus. apply sum_n_ext. intros q Hq.
    unfold amap2. cbn [item]. rewrite HT1, HT2.
    rewrite (bindex_in_bounds [batch_count; nn_count; response_count] [b; q; k])
      by (cbn; tauto).
    ring.
  - rewrite <- sum_n_scal_l. apply sum_n_ext. intros p Hp.
    rewrite <- Rmult_assoc, (Rmult_comm c), Rmult_assoc. f_equal.
    rewrite <- sum_n_scal_l. apply sum_n_ext. intros q Hq.
    unfold amap. cbn [item]. ring.
Qed.

(** X19. At a batch element [b] whose covariance matrix [K[b]] is
    non-singular, a cross-covariance that is zero gives the prior:
    predicted mean 0 and diagonal variance 1, whatever the targets are. *)
Theorem zero_cross_covariance_gives_prior
    (K Kcross targets : ndarray R)
    (batch_count nn_count response_count b : nat) :
  shape K = [batch_count; nn_count; nn_count] ->
  shape Kcross = [batch_count; nn_count] ->
  shape targets = [batch_count; nn_count; response_count] ->
  (b < batch_count)%nat ->
  nonsingular_at nn_count K b ->
  (forall q, (q < nn_count)%nat -> item Kcross [b; q] = 0) ->
  exists out V,
    _muygps_compute_solve linalg_solve K Kcross targets = Ok out /\
    _muygps_compute_diagonal_variance linalg_solve K Kcross = Ok V /\
    (forall k, (k < response_count)%nat -> item out [b; k] = 0) /\
    item V [b] = 1.
Proof.
  intros HK HKc HT Hb _ Hz.
  destruct (compute_solve_entries linalg_solve linalg_solve_ok K Kcross targets
              _ _ _ HK HKc HT) as (out & Ho & _ & Hio).
  destruct (diagonal_variance_entries linalg_solve linalg_solve_ok K Kcross
              _ _ HK HKc) as (V & HV & _ & HiV).
  exists out, V. split; [exact Ho|]. split; [exact HV|]. split.
  - intros k Hk. rewrite (Hio b k Hb Hk).
    rewrite (sum_n_ext _ _ (fun _ => 0)); [apply sum_n_zero|].
    intros q Hq. rewrite (Hz q Hq). ring.
  - rewrite (HiV b Hb).
    rewrite (sum_n_ext _ _ (fun _ => 0)); [rewrite sum_n_zero; lra|].
    intros q Hq. rewrite (Hz q Hq). ring.
Qed.

End SolverProperties.

Section SolverScaling.

Variable linalg_solve : ndarray R -> ndarray R -> ndarray R.
Hypothesis linalg_solve_ok : solver_spec linalg_solve.

Lemma scaled_inverse (n : nat) (K Kinv : ndarray R) (c : R) (i : nat) :
  c <> 0 -> inverse_at n K Kinv i ->
  inverse_at n (amap (Rmult c) K) (amap (Rmult (/ c)) Kinv) i.
Proof.
  intros Hc [Hl Hr]. split; intros p q Hp Hq; unfold amap; cbn [item].
  - rewrite <- (Hl p q Hp Hq). apply sum_n_ext. intros m _. now field.
  - rewrite <- (Hr p q Hp Hq). apply sum_n_ext. intros m _. now field.
Qed.

(** X20. Multiplying the covariance and the cross-covariance by the same
    non-zero factor [c] (a rescaled kernel) leaves the predicted mean
    unchanged at every non-singular batch element, and multiplies the
    variance reduction [1 - V[b]] by [c]. *)
Theorem solve_invariant_under_kernel_scaling
    (K Kcross targets : ndarray R) (c : R)
    (batch_count nn_count response_count b : nat) :
  shape K = [batch_count; nn_count; nn_count] ->
  shape Kcross = [batch_count; nn_count] ->
  shape targets = [batch_count; nn_count; response_count] ->
  (b < batch_count)%nat -> c <> 0 ->
  nonsingular_at nn_count K b ->
  exists out out' V V',
    _muygps_compute_solve linalg_solve K Kcross targets = Ok out /\
    _muygps_compute_solve linalg_solve
      (amap (Rmult c) K) (amap (Rmult c) Kcross) targets = Ok out' /\
    _muygps_compute_diagonal_variance linalg_solve K Kcross = Ok V /\
    _muygps_compute_diagonal_variance linalg_solve
      (amap (Rmult c) K) (amap (Rmult c) Kcross) = Ok V' /\
    (forall k, (k < response_count)%nat -> item out' [b; k] = item out [b; k]) /\
    1 - item V' [b] = c * (1 - item V [b]).
Proof.
  intros HK HKc HT Hb Hc [Kinv Hinv].
  pose proof (scaled_inverse _ K Kinv c b Hc Hinv) as Hinv'.
  set (K' := amap (Rmult c) K) in *. set (Kc' := amap (Rmult c) Kcross).
  assert (HK' : shape K' = [batch_count; nn_count; nn_count]) by exact HK.
  assert (HKc' : shape Kc' = [batch_count; nn_count]) by exact HKc.
  destruct (compute_solve_entries linalg_solve linalg_solve_ok K Kcross targets
              _ _ _ HK HKc HT) as (out & Ho & _ & _).
  destruct (compute_solve_entries linalg_solve linalg_solve_ok K' Kc' targets
              _ _ _ HK' HKc' HT) as (out' & Ho' & _ & _).
  destruct (diagonal_variance_entries linalg_solve linalg_solve_ok K Kcross
              _ _ HK HKc) as (V & HV & _ & _).
  destruct (diagonal_variance_entries linalg_solve linalg_solve_ok K' Kc'
              _ _ HK' HKc') as (V' & HV' & _ & _).
  exists out, out', V, V'.
  split; [exact Ho|]. split; [exact Ho'|]. split; [exact HV|]. split; [exact HV'|].
  split.
  - intros k Hk.
    rewrite (compute_solve_via_inverse linalg_solve linalg_solve_ok
               K Kcross targets out Kinv _ _ _ b k HK HKc HT Ho Hb Hk Hinv).
    rewrite (compute_solve_via_inverse linalg_solve linalg_solve_ok
               K' Kc' targets out' _ _ _ _ b k HK' HKc' HT Ho' Hb Hk Hinv').
    apply sum_n_ext. intros p _. unfold Kc', amap. cbn [item].
    rewrite (sum_n_ext _ _ (fun q => / c * (item Kinv [b; p; q] * item targets [b; q; k])))
      by (intros; ring).
    rewrite sum_n_scal_l. now field.
  - destruct (diagonal_variance_value linalg_solve linalg_solve_ok
                K Kcross V Kinv _ _ b HK HKc HV Hb Hinv) as (_ & _ & E).
    destruct (diagonal_variance_value linalg_solve linalg_solve_ok
                K' Kc' V' _ _ _ b HK' HKc' HV' Hb Hinv') as (_ & _ & E').
    assert (S' : sum_n nn_count (fun p => item Kc' [b; p] *
                   sum_n nn_count (fun q => item (amap (Rmult (/ c)) Kinv) [b; p; q] *
                                            item Kc' [b; q])) =
                 c * sum_n nn_count (fun p => item Kcross [b; p] *
                   sum_n nn_count (fun q => item Kinv [b; p; q] * item Kcross [b; q]))).
    { rewrite <- sum_n_scal_l. apply sum_n_ext. intros p _.
      unfold Kc', amap. cbn [item].
      rewrite (sum_n_ext _ _ (fun q => item Kinv [b; p; q] * item Kcross [b; q]))
        by (intros; now field).
      ring. }
    rewrite E, E', S'. ring.
Qed.

End SolverScaling.

(** X21. Shape errors of the solver entry points, for any solver: the
    batched solve raises a [ValueError] when the target tensor is not of
    rank 3 and a [TypeError] when [Kcross] does not hold
    [batch_count * nn_count] entries; the diagonal variance raises a
    [ValueError] when [Kcross] is not of rank 2. *)
Theorem solver_shape_errors
    (linalg_solve : ndarray R -> ndarray R -> ndarray R)
    (K Kcross targets : ndarray R) :
  (ndim targets <> 3%nat ->
   exists msg,
     _muygps_compute_solve linalg_solve K Kcross targets = Raise (ValueError msg)) /\
  (forall batch_count nn_count response_count,
     shape targets = [batch_count; nn_count; response_count] ->
     size (shape Kcross) <> (batch_count * nn_count)%nat ->
     exists msg,
       _muygps_compute_solve linalg_solve K Kcross targets = Raise (TypeError msg)) /\
  (ndim Kcross <> 2%nat ->
   exists msg,
     _muygps_compute_diagonal_variance linalg_solve K Kcross =
     Raise (ValueError msg)).
Proof.
  split; [|split].
  - intros Hr. unfold _muygps_compute_solve, ndim in *.
    destruct (shape targets) as [|a [|b [|c [|d l]]]]; cbn in *;
      try (eexists; reflexivity); lia.
  - intros b n r HT Hsz. unfold _muygps_compute_solve. rewrite HT.
    cbn [unpack3 bind]. unfold reshape_to.
    destruct (Nat.eqb_spec (size [b; 1%nat; n]) (size (shape Kcross))) as [E|_].
    + cbn in E. lia.
    + cbn [bind]. eexists. reflexivity.
  - intros Hr. unfold _muygps_compute_diagonal_variance, ndim in *.
    destruct (shape Kcross) as [|a [|b [|c l]]]; cbn in *;
      try (eexists; reflexivity); lia.
Qed.

Lemma solver_shape_errors_witness :
  (exists msg,
     _muygps_compute_solve reference_solve sample_K sample_Kcross sample_Kcross
       = Raise (ValueError msg)) /\
  (exists msg,
     _muygps_compute_solve reference_solve sample_K sample_sq sample_nn_targets
       = Raise (TypeError msg)) /\
  (exists msg,
     _muygps_compute_diagonal_variance reference_solve sample_K sample_K =
     Raise (ValueError msg)).
Proof.
  split; [|split].
  - assert (H : ndim sample_Kcross <> 3%nat) by (cbn; discriminate).
    exact (proj1 (solver_shape_errors reference_solve sample_K sample_Kcross
                    sample_Kcross) H).
  - assert (H : size (shape sample_sq) <> (1 * 2)%nat) by (cbn; discriminate).
    exact (proj1 (proj2 (solver_shape_errors reference_solve sample_K sample_sq
                           sample_nn_targets)) 1%nat 2%nat 1%nat eq_refl H).
  - assert (H : ndim sample_K <> 2%nat) by (cbn; discriminate).
    exact (proj2 (proj2 (solver_shape_errors reference_solve sample_K sample_K
                           sample_K)) H).
Defined.

(** X22. When the per-response cross-covariance tensor repeats one
    cross-covariance for every response ([Kcross3[i,j,k] = Kcross[i,j]]),
    the multivariate fast contraction returns the tensor of the
    single-model fast contraction. *)
Theorem mmuygps_fast_solve_reduces_to_muygps
    (Kcross Kcross3 coeffs : ndarray R)
    (batch_count nn_count response_count : nat) :
  shape Kcross = [batch_count; nn_count] ->
  shape Kcross3 = [batch_count; nn_count; response_count] ->
  shape coeffs = [batch_count; nn_count; response_count] ->
  (forall i j k, (i < batch_count)%nat -> (j < nn_count)%nat ->
     (k < response_count)%nat -> item Kcross3 [i; j; k] = item Kcross [i; j]) ->
  array_eq (_mmuygps_fast_regress_solve Kcross3 coeffs)
           (_muygps_fast_regress_solve Kcross coeffs).
Proof.
  intros HK HK3 HC Hrep.
  unfold _mmuygps_fast_regress_solve, _muygps_fast_regress_solve,
    einsum_ijk_ijk_ik, einsum_ij_ijk_ik, dim. split.
  - cbn [shape]. now rewrite HK, HK3, HC.
  - cbn [shape item]. rewrite HK, HK3. cbn [nth]. intros ix Hin.
    destruct (in_bounds2 _ _ ix Hin) as (i & k & -> & Hi & Hk).
    apply sum_n_ext. intros j Hj. now rewrite Hrep.
Qed.

Lemma mmuygps_fast_solve_reduces_to_muygps_witness :
  array_eq
    (_mmuygps_fast_regress_solve
       (mk_ndarray [1%nat; 2%nat; 1%nat]
          (fun ix => match ix with [i; j; _] => item sample_Kcross [i; j] | _ => 0 end))
       sample_nn_targets)
    (_muygps_fast_regress_solve sample_Kcross sample_nn_targets).
Proof.
  refine (mmuygps_fast_solve_reduces_to_muygps sample_Kcross
            (mk_ndarray [1%nat; 2%nat; 1%nat]
               (fun ix => match ix with
                          | [i; j; _] => item sample_Kcross [i; j]
                          | _ => 0
                          end))
            sample_nn_targets 1 2 1 eq_refl eq_refl eq_refl _).
  intros i j k _ _ _. reflexivity.
Defined.

(** Witnesses of the solver properties on the sample batch. *)
Lemma solve_interpolates_at_neighbour_witness :
  exists out V,
    _muygps_compute_solve reference_solve sample_K
      (mk_ndarray [1%nat; 2%nat] (fun ix => item sample_K (0%nat :: ix)))
      sample_nn_targets = Ok out /\
    _muygps_compute_diagonal_variance reference_solve sample_K
      (mk_ndarray [1%nat; 2%nat] (fun ix => item sample_K (0%nat :: ix))) = Ok V /\
    (forall k, (k < 1)%nat -> item out [0%nat; k] = item sample_nn_targets [0%nat; 0%nat; k]) /\
    item V [0%nat] = 1 - item sample_K [0%nat; 0%nat; 0%nat] /\
    (item sample_K [0%nat; 0%nat; 0%nat] = 1 -> item V [0%nat] = 0).
Proof.
  assert (H01 : (0 < 1)%nat) by lia.
  assert (H02 : (0 < 2)%nat) by lia.
  refine (solve_interpolates_at_neighbour reference_solve reference_solve_ok
            sample_K
            (mk_ndarray [1%nat; 2%nat] (fun ix => item sample_K (0%nat :: ix)))
            sample_nn_targets 1 2 1 0 0 eq_refl eq_refl eq_refl H01 H02
            (sample_K_nonsingular 0) _).
  intros q _. reflexivity.
Defined.

Lemma solve_linear_in_targets_witness :
  exists out1 out2 out_sum out_scaled,
    _muygps_compute_solve reference_solve sample_K sample_Kcross sample_nn_targets
      = Ok out1 /\
    _muygps_compute_solve reference_solve sample_K sample_Kcross sample_nn_targets
      = Ok out2 /\
    _muygps_compute_solve reference_solve sample_K sample_Kcross
      (amap2 Rplus sample_nn_targets sample_nn_targets) = Ok out_sum /\
    _muygps_compute_solve reference_solve sample_K sample_Kcross
      (amap (Rmult 2) sample_nn_targets) = Ok out_scaled /\
    item out_sum [0%nat; 0%nat] =
      item out1 [0%nat; 0%nat] + item out2 [0%nat; 0%nat] /\
    item out_scaled [0%nat; 0%nat] = 2 * item out1 [0%nat; 0%nat].
Proof.
  assert (H01 : (0 < 1)%nat) by lia.
  exact (solve_linear_in_targets reference_solve reference_solve_ok
           sample_K sample_Kcross sample_nn_targets sample_nn_targets 2
           1 2 1 0 0 eq_refl eq_refl eq_refl eq_refl H01 H01
           (sample_K_nonsingular 0)).
Defined.

Lemma zero_cross_covariance_gives_prior_witness :
  exists out V,
    _muygps_compute_solve reference_solve sample_K
      (mk_ndarray [1%nat; 2%nat] (fun _ => 0)) sample_nn_targets = Ok out /\
    _muygps_compute_diagonal_variance reference_solve sample_K
      (mk_ndarray [1%nat; 2%nat] (fun _ => 0)) = Ok V /\
    (forall k, (k < 1)%nat -> item out [0%nat; k] = 0) /\
    item V [0%nat] = 1.
Proof.
  assert (H01 : (0 < 1)%nat) by lia.
  exact (zero_cross_covariance_gives_prior reference_solve reference_solve_ok
           sample_K (mk_ndarray [1%nat; 2%nat] (fun _ => 0)) sample_nn_targets
           1 2 1 0 eq_refl eq_refl eq_refl H01 (sample_K_nonsingular 0)
           (fun q _ => eq_refl)).
Defined.

Lemma solve_invariant_under_kernel_scaling_witness :
  exists out out' V V',
    _muygps_compute_solve reference_solve sample_K sample_Kcross sample_nn_targets
      = Ok out /\
    _muygps_compute_solve reference_solve
      (amap (Rmult 4) sample_K) (amap (Rmult 4) sample_Kcross) sample_nn_targets
      = Ok out' /\
    _muygps_compute_diagonal_variance reference_solve sample_K sample_Kcross = Ok V /\
    _muygps_compute_diagonal_variance reference_solve
      (amap (Rmult 4) sample_K) (amap (Rmult 4) sample_Kcross) = Ok V' /\
    (forall k, (k < 1)%nat -> item out' [0%nat; k] = item out [0%nat; k]) /\
    1 - item V' [0%nat] = 4 * (1 - item V [0%nat]).
Proof.
  assert (H01 : (0 < 1)%nat) by lia.
  assert (H4 : 4 <> 0) by lra.
  exact (solve_invariant_under_kernel_scaling reference_solve reference_solve_ok
           sample_K sample_Kcross sample_nn_targets 4 1 2 1 0
           eq_refl eq_refl eq_refl H01 H4 (sample_K_nonsingular 0)).
Defined.

(* ================================================================== *)
(** ** Batch filtering *)

Lemma np_mapM_ok {A B : Type} (f : A -> np_result B) (g : A -> B) (l : list A) :
  (forall x, In x l -> f x = NpOk (g x)) -> np_mapM f l = NpOk (map g l).
Proof.
  induction l as [|x l IH]; intros H; cbn; [reflexivity|].
  rewrite (H x) by now left. cbn.
  rewrite IH by (intros y Hy; apply H; now right). reflexivity.
Qed.

Lemma np_mapM_raise {A B : Type} (f : A -> np_result B) (Q : np_exn -> Prop)
    (l : list A) :
  (forall x e, f x = NpRaise e -> Q e) ->
  (exists x e, In x l /\ f x = NpRaise e) ->
  exists e, np_mapM f l = NpRaise e /\ Q e.
Proof.
  intros HQ. induction l as [|x l IH]; intros (y & e & Hy & He); [destruct Hy|].
  cbn. destruct (f x) as [v|e'] eqn:Hx.
  - cbn. destruct Hy as [->|Hy]; [congruence|].
    destruct IH as (e'' & -> & HQ''); [now exists y, e|].
    cbn. now exists e''.
  - cbn. exists e'. split; [reflexivity | now apply (HQ x)].
Qed.

Lemma np_getitem_ok (labels : list Z) (z : Z) :
  (- Z.of_nat (List.length labels) <= z < Z.of_nat (List.length labels))%Z ->
  np_getitem labels z = NpOk (label_at labels z).
Proof.
  intros H. unfold np_getitem, label_at.
  destruct (Z.ltb_spec z (- Z.of_nat (List.length labels))); [lia|].
  destruct (Z.leb_spec (Z.of_nat (List.length labels)) z); [lia|]. reflexivity.
Qed.

Lemma np_getitem_raise (labels : list Z) (z : Z) (e : np_exn) :
  np_getitem labels z = NpRaise e -> exists msg, e = NpIndexError msg.
Proof.
  unfold np_getitem. destruct (_ || _); intros H; [|discriminate].
  injection H as <-. eexists. reflexivity.
Qed.

Lemma np_getitem_out_of_range (labels : list Z) (z : Z) :
  (z < - Z.of_nat (List.length labels) \/ Z.of_nat (List.length labels) <= z)%Z ->
  exists e, np_getitem labels z = NpRaise e.
Proof.
  intros H. unfold np_getitem.
  destruct (Z.ltb_spec z (- Z.of_nat (List.length labels)));
    destruct (Z.leb_spec (Z.of_nat (List.length labels)) z);
    cbn; try (eexists; reflexivity); lia.
Qed.

Lemma fold_max_spec (x : Z) (l : list Z) :
  In (fold_right Z.max x l) (x :: l) /\
  forall y, In y (x :: l) -> (y <= fold_right Z.max x l)%Z.
Proof.
  induction l as [|a l [IHin IHge]]; cbn.
  - split; [now left | intros y [E|[]]; lia].
  - split.
    + destruct (Z.max_spec a (fold_right Z.max x l)) as [[_ ->]|[_ ->]].
      * destruct IHin as [H|H]; [now left | right; now right].
      * right. now left.
    + intros y [E|[E|Hy]].
      * specialize (IHge x (or_introl eq_refl)). lia.
      * lia.
      * specialize (IHge y (or_intror Hy)). lia.
Qed.

Lemma fold_min_spec (x : Z) (l : list Z) :
  In (fold_right Z.min x l) (x :: l) /\
  forall y, In y (x :: l) -> (fold_right Z.min x l <= y)%Z.
Proof.
  induction l as [|a l [IHin IHge]]; cbn.
  - split; [now left | intros y [E|[]]; lia].
  - split.
    + destruct (Z.min_spec a (fold_right Z.min x l)) as [[_ ->]|[_ ->]].
      * right. now left.
      * destruct IHin as [H|H]; [now left | right; now right].
    + intros y [E|[E|Hy]].
      * specialize (IHge x (or_introl eq_refl)). lia.
      * lia.
      * specialize (IHge y (or_intror Hy)). lia.
Qed.

(** A non-empty row has different maximum and minimum exactly when it holds
    two different values. *)
Lemma row_max_min_differ (row : list Z) :
  row <> [] ->
  (negb (row_max row =? row_min row)%Z = true <->
   exists a b, In a row /\ In b row /\ a <> b).
Proof.
  intros Hne. destruct row as [|x l]; [contradiction|].
  unfold row_max, row_min. cbn [hd tl].
  destruct (fold_max_spec x l) as [Hmi Hmg].
  destruct (fold_min_spec x l) as [Hni Hng].
  rewrite negb_true_iff, Z.eqb_neq. split.
  - intros Hd. exists (fold_right Z.max x l), (fold_right Z.min x l). tauto.
  - intros (a & b & Ha & Hb & Hab) Heq.
    pose proof (Hmg a Ha). pose proof (Hng a Ha).
    pose proof (Hmg b Hb). pose proof (Hng b Hb). lia.
Qed.

Lemma np_not_equal_map {A : Type} (f g : A -> Z) (l : list A) :
  np_not_equal (map f l) (map g l) = map (fun r => negb (f r =? g r)%Z) l.
Proof.
  unfold np_not_equal. induction l as [|x l IH]; cbn; [reflexivity|].
  now rewrite IH.
Qed.

Lemma mask_select_pairs {A B : Type} (p : B -> bool) (rows : list B) (l : list A) :
  List.length rows = List.length l ->
  combine (map snd (filter fst (combine (map p rows) l)))
          (map snd (filter fst (combine (map p rows) rows))) =
  filter (fun xr => p (snd xr)) (combine l rows).
Proof.
  revert l. induction rows as [|r rows IH]; intros [|x l] Hlen; cbn in *;
    try reflexivity; try discriminate.
  injection Hlen as Hlen. destruct (p r); cbn; now rewrite IH.
Qed.

Lemma mask_select_in {A : Type} (mask : list bool) (l : list A) (x : A) :
  In x (map snd (filter fst (combine mask l))) -> In x l.
Proof.
  intros H. apply in_map_iff in H. destruct H as ([m y] & <- & Hin).
  apply filter_In in Hin. destruct Hin as [Hin _].
  now apply in_combine_r in Hin.
Qed.

Lemma mask_select_sorted (mask : list bool) (l : list Z) :
  StronglySorted Z.lt l ->
  StronglySorted Z.lt (map snd (filter fst (combine mask l))).
Proof.
  intros Hs. revert mask. induction Hs as [|x l Hs IH Hall]; intros [|m mask]; cbn;
    try constructor.
  destruct m; cbn; [|apply IH].
  constructor; [apply IH|].
  apply Forall_forall. intros y Hy. apply mask_select_in in Hy.
  rewrite Forall_forall in Hall. now apply Hall.
Qed.

Lemma range_sorted (start len : nat) :
  StronglySorted Z.lt (map Z.of_nat (seq start len)).
Proof.
  revert start. induction len as [|len IH]; intros start; cbn; constructor.
  - apply IH.
  - apply Forall_forall. intros y Hy. apply in_map_iff in Hy.
    destruct Hy as (k & <- & Hk). apply in_seq in Hk. lia.
Qed.

Section BatchProperties.

Variable get_batch_nns : list Z -> int_matrix.

(** X23. When the neighbour lookup returns one row of [nn_count >= 1] valid
    indices per training point, [full_filtered_batch] returns the training
    indices, in increasing order and each paired with its own neighbour
    row, of exactly those points whose neighbours do not all carry the same
    class label. *)
Theorem full_filtered_batch_keeps_mixed_neighbourhoods (labels : list Z) :
  let indices := map Z.of_nat (seq 0 (List.length labels)) in
  let nn_indices := get_batch_nns indices in
  List.length (mrows nn_indices) = List.length labels ->
  (1 <= ncols nn_indices)%nat ->
  Forall (fun row => List.length row = ncols nn_indices) (mrows nn_indices) ->
  Forall (Forall (fun z =>
            (- Z.of_nat (List.length labels) <= z < Z.of_nat (List.length labels))%Z))
    (mrows nn_indices) ->
  exists batch_indices batch_nn_rows,
    full_filtered_batch get_batch_nns labels =
      NpOk (batch_indices, mk_int_matrix (ncols nn_indices) batch_nn_rows) /\
    List.length batch_indices = List.length batch_nn_rows /\
    StronglySorted Z.lt batch_indices /\
    forall i row,
      In (i, row) (combine batch_indices batch_nn_rows) <->
      In (i, row) (combine indices (mrows nn_indices)) /\
      exists a b, In a row /\ In b row /\ label_at labels a <> label_at labels b.
Proof.
  intros indices nn Hlen Hcols Hrows Hvalid.
  set (lab := label_at labels).
  set (p := fun row : list Z =>
              negb (row_max (map lab row) =? row_min (map lab row))%Z).
  assert (Htake : np_take labels nn =
                  NpOk (mk_int_matrix (ncols nn) (map (map lab) (mrows nn)))).
  { unfold np_take. rewrite (np_mapM_ok _ (map lab)); [reflexivity|].
    intros row Hrow. apply np_mapM_ok. intros z Hz. apply np_getitem_ok.
    rewrite Forall_forall in Hvalid. specialize (Hvalid row Hrow).
    rewrite Forall_forall in Hvalid. now apply Hvalid. }
  assert (Hnz : (ncols nn =? 0)%nat = false) by (apply Nat.eqb_neq; lia).
  assert (Hl1 : List.length (map p (mrows nn)) = List.length indices)
    by (unfold indices; now rewrite !length_map, length_seq).
  assert (Hl2 : List.length (map p (mrows nn)) = List.length (mrows nn))
    by now rewrite length_map.
  assert (Hrun : full_filtered_batch get_batch_nns labels =
            NpOk (map snd (filter fst (combine (map p (mrows nn)) indices)),
                  mk_int_matrix (ncols nn)
                    (map snd (filter fst (combine (map p (mrows nn)) (mrows nn)))))).
  { unfold full_filtered_batch. fold indices. fold nn. rewrite Htake.
    cbn [np_bind]. unfold np_max_axis1, np_min_axis1. cbn [ncols mrows].
    rewrite Hnz. cbn [np_bind]. rewrite !map_map.
    rewrite (np_not_equal_map (fun row => row_max (map lab row))
               (fun row => row_min (map lab row)) (mrows nn)).
    fold p. unfold np_mask_select.
    rewrite Hl2, (eq_trans (eq_sym Hl1) Hl2), !Nat.eqb_refl.
    reflexivity. }
  do 2 eexists. split; [exact Hrun|].
  assert (Hpairs := mask_select_pairs p (mrows nn) indices
                      (eq_trans (eq_sym Hl2) Hl1)).
  split; [|split].
  - rewrite !length_map.
    assert (E : forall (A : Type) (rows : list (list Z)) (l : list A),
              List.length rows = List.length l ->
              List.length (filter fst (combine (map p rows) l)) =
              List.length (filter fst (combine (map p rows) rows))).
    { intros A rows. induction rows as [|r rows IH]; intros [|x l] Hl; cbn in *;
        try reflexivity; try discriminate.
      injection Hl as Hl. destruct (p r); cbn; now rewrite (IH l Hl). }
    apply E. exact (eq_trans (eq_sym Hl2) Hl1).
  - apply mask_select_sorted. apply range_sorted.
  - intros i row. rewrite Hpairs, filter_In. cbn [snd]. split.
    + intros [Hin Hp]. split; [exact Hin|].
      assert (Hne : map lab row <> []).
      { apply in_combine_r in Hin. rewrite Forall_forall in Hrows.
        specialize (Hrows row Hin). destruct row; cbn in *; [lia | discriminate]. }
      apply (row_max_min_differ _ Hne) in Hp.
      destruct Hp as (a & b & Ha & Hb & Hab).
      apply in_map_iff in Ha, Hb.
      destruct Ha as (a' & <- & Ha'). destruct Hb as (b' & <- & Hb').
      now exists a', b'.
    + intros [Hin (a & b & Ha & Hb & Hab)]. split; [exact Hin|].
      assert (Hne : map lab row <> []) by (destruct row; [destruct Ha | discriminate]).
      apply (row_max_min_differ _ Hne).
      exists (lab a), (lab b). split; [now apply in_map|]. split; [now apply in_map|].
      exact Hab.
Qed.

(** X24. [full_filtered_batch] raises a [ValueError] when the lookup
    returns rows without columns (the reduction over the neighbour axis is
    refused), and an [IndexError] when some neighbour index is outside the
    label array. *)
Theorem full_filtered_batch_errors (labels : list Z) :
  let indices := map Z.of_nat (seq 0 (List.length labels)) in
  let nn_indices := get_batch_nns indices in
  (ncols nn_indices = 0%nat ->
   Forall (fun row => row = []) (mrows nn_indices) ->
   exists msg,
     full_filtered_batch get_batch_nns labels = NpRaise (NpValueError msg)) /\
  ((exists row z, In row (mrows nn_indices) /\ In z row /\
      (z < - Z.of_nat (List.length labels) \/ Z.of_nat (List.length labels) <= z)%Z) ->
   exists msg,
     full_filtered_batch get_batch_nns labels = NpRaise (NpIndexError msg)).
Proof.
  intros indices nn. split.
  - intros Hc Hrows. unfold full_filtered_batch. fold indices. fold nn.
    unfold np_take.
    rewrite (np_mapM_ok _ (fun _ => [])).
    + cbn [np_bind]. unfold np_max_axis1. cbn [ncols]. rewrite Hc. cbn.
      eexists. reflexivity.
    + intros row Hrow. rewrite Forall_forall in Hrows.
      now rewrite (Hrows row Hrow).
  - intros (row & z & Hrow & Hz & Hout).
    unfold full_filtered_batch. fold indices. fold nn. unfold np_take.
    set (Q := fun e : np_exn => exists msg, e = NpIndexError msg).
    assert (Hinner : forall r e, np_mapM (np_getitem labels) r = NpRaise e -> Q e).
    { intros r. induction r as [|x r IH]; intros e; cbn; [discriminate|].
      destruct (np_getitem labels x) as [v|e'] eqn:Hx; cbn.
      - destruct (np_mapM (np_getitem labels) r) as [vs|e'']; cbn;
          [discriminate|]. intros H. injection H as <-. now apply IH.
      - intros H. injection H as <-. now apply (np_getitem_raise labels x). }
    destruct (np_getitem_out_of_range labels z Hout) as [e0 He0].
    destruct (np_mapM_raise (np_getitem labels) Q row
                (fun x e => np_getitem_raise labels x e)
                (ex_intro _ z (ex_intro _ e0 (conj Hz He0)))) as (e1 & He1 & _).
    destruct (np_mapM_raise (np_mapM (np_getitem labels)) Q (mrows nn) Hinner
                (ex_intro _ row (ex_intro _ e1 (conj Hrow He1))))
      as (e2 & He2 & (msg & ->)).
    rewrite He2. cbn. now exists msg.
Qed.

End BatchProperties.

Lemma full_filtered_batch_keeps_mixed_neighbourhoods_witness :
  exists batch_indices batch_nn_rows,
    full_filtered_batch sample_lookup sample_labels =
      NpOk (batch_indices, mk_int_matrix 2 batch_nn_rows) /\
    List.length batch_indices = List.length batch_nn_rows /\
    StronglySorted Z.lt batch_indices /\
    forall i row,
      In (i, row) (combine batch_indices batch_nn_rows) <->
      In (i, row) (combine [0%Z; 1%Z; 2%Z] [[1%Z; 2%Z]; [0%Z; 2%Z]; [0%Z; 1%Z]]) /\
      exists a b, In a row /\ In b row /\
        label_at sample_labels a <> label_at sample_labels b.
Proof.
  refine (full_filtered_batch_keeps_mixed_neighbourhoods sample_lookup
            sample_labels eq_refl _ _ _).
  - cbn. lia.
  - repeat constructor.
  - repeat constructor; cbn; lia.
Defined.

Lemma full_filtered_batch_errors_witness :
  (exists msg,
     full_filtered_batch (fun _ => mk_int_matrix 0 [[]; []; []]) sample_labels
       = NpRaise (NpValueError msg)) /\
  (exists msg,
     full_filtered_batch (fun _ => mk_int_matrix 1 [[0%Z]; [3%Z]; [0%Z]])
       sample_labels = NpRaise (NpIndexError msg)).
Proof.
  split.
  - refine (proj1 (full_filtered_batch_errors
                     (fun _ => mk_int_matrix 0 [[]; []; []]) sample_labels)
              eq_refl _).
    repeat constructor.
  - refine (proj2 (full_filtered_batch_errors
                     (fun _ => mk_int_matrix 1 [[0%Z]; [3%Z]; [0%Z]]) sample_labels)
              _).
    exists [3%Z], 3%Z. cbn. split; [tauto|]. split; [tauto|]. lia.
Defined.

(** On the sample labels -1, 1, 1 the first point has neighbours of one
    class and is dropped; the other two are kept. *)
Example sample_full_filtered_batch :
  full_filtered_batch sample_lookup sample_labels =
  NpOk ([1%Z; 2%Z], mk_int_matrix 2 [[0%Z; 2%Z]; [0%Z; 1%Z]]).
Proof. reflexivity. Qed.
